(** * The extension tips service of the workbench

    A shallow embedding of
    [src/vs/workbench/parts/extensions/electron-browser/extensionTipsService.ts]
    and the properties of its recommendation engine.

    The service is a JavaScript object driven by an event loop.  The
    embedding keeps the fields of the object in a record, threads the
    record together with the storage, the [setImmediate] queue, the
    pending promises and the shown messages through every callback, and
    lets a list of events stand for one run of the loop. *)

From Stdlib Require Import String Ascii List ZArith Lia Bool.
From stdpp Require Import base option strings list gmap.
Import ListNotations.

Local Open Scope string_scope.
Local Open Scope list_scope.

(** ** JSON texts

    [JSON.parse] and [JSON.stringify] are builtins of the language.  The
    storage keeps texts, and the service reads them back with
    [JSON.parse], so the embedding carries a reader of the whole JSON
    grammar.  Strings are kept as bytes: an escape [\uXXXX] of a code
    unit beyond ASCII is read as the UTF-8 bytes of that unit. *)
Module JSON.

#[local] Set Warnings "-register-all".

Inductive value : Type :=
  | Null
  | Bool (b : bool)
  | Number (lexeme : string)
  | Str (s : string)
  | Array (elements : list value)
  | Object (members : list (string * value)).

Definition is_ws (c : ascii) : bool :=
  (c =? " ")%char || (c =? "009")%char || (c =? "010")%char || (c =? "013")%char.

Fixpoint skip_ws (s : string) : string :=
  match s with
  | String c r => if is_ws c then skip_ws r else s
  | EmptyString => s
  end.

Definition is_digit (c : ascii) : bool :=
  let n := nat_of_ascii c in (48 <=? n)%nat && (n <=? 57)%nat.

Definition hex_digit (c : ascii) : option nat :=
  let n := nat_of_ascii c in
  if (48 <=? n)%nat && (n <=? 57)%nat then Some (n - 48)%nat
  else if (97 <=? n)%nat && (n <=? 102)%nat then Some (n - 87)%nat
  else if (65 <=? n)%nat && (n <=? 70)%nat then Some (n - 55)%nat
  else None.

Definition hex4 (a b c d : ascii) : option nat :=
  match hex_digit a, hex_digit b, hex_digit c, hex_digit d with
  | Some x, Some y, Some z, Some w =>
      Some (((x * 16 + y) * 16 + z) * 16 + w)%nat
  | _, _, _, _ => None
  end.

(** The bytes that stand for the code unit [n] (below 65536). *)
Definition code_unit (n : nat) : string :=
  if (n <? 128)%nat then String (ascii_of_nat n) EmptyString
  else if (n <? 2048)%nat then
    String (ascii_of_nat (192 + n / 64))
      (String (ascii_of_nat (128 + n mod 64)) EmptyString)
  else
    String (ascii_of_nat (224 + n / 4096))
      (String (ascii_of_nat (128 + (n / 64) mod 64))
        (String (ascii_of_nat (128 + n mod 64)) EmptyString)).

(** The one-letter escapes of a JSON string. *)
Definition unescape (e : ascii) : option ascii :=
  if (e =? "034")%char then Some "034"%char
  else if (e =? "\")%char then Some "\"%char
  else if (e =? "/")%char then Some "/"%char
  else if (e =? "b")%char then Some "008"%char
  else if (e =? "f")%char then Some "012"%char
  else if (e =? "n")%char then Some "010"%char
  else if (e =? "r")%char then Some "013"%char
  else if (e =? "t")%char then Some "009"%char
  else None.

Definition prepend (p : string) (r : option (string * string))
  : option (string * string) :=
  match r with
  | Some (s, rest) => Some (String.append p s, rest)
  | None => None
  end.

(** The characters of a string literal after its opening quote: the
    string read and the text after the closing quote. *)
Fixpoint parse_chars (s : string) : option (string * string) :=
  match s with
  | EmptyString => None
  | String c r =>
      if (c =? "034")%char then Some (EmptyString, r)
      else if (c =? "\")%char then
        match r with
        | String e r' =>
            match unescape e with
            | Some d => prepend (String d EmptyString) (parse_chars r')
            | None =>
                if (e =? "u")%char then
                  match r' with
                  | String h1 (String h2 (String h3 (String h4 r''))) =>
                      match hex4 h1 h2 h3 h4 with
                      | Some n => prepend (code_unit n) (parse_chars r'')
                      | None => None
                      end
                  | _ => None
                  end
                else None
            end
        | EmptyString => None
        end
      else if (nat_of_ascii c <? 32)%nat then None
      else prepend (String c EmptyString) (parse_chars r)
  end.

(** The longest prefix of digits, and the rest. *)
Fixpoint digits (s : string) : string * string :=
  match s with
  | String c r =>
      if is_digit c then let (d, rest) := digits r in (String c d, rest)
      else (EmptyString, s)
  | EmptyString => (EmptyString, s)
  end.

Definition digits1 (s : string) : option (string * string) :=
  match digits s with
  | (EmptyString, _) => None
  | (d, rest) => Some (d, rest)
  end.

(** A number: an optional minus sign, then zero or a digit string with
    no leading zero, then an optional fraction and an optional exponent. *)
Definition parse_int (s : string) : option (string * string) :=
  match s with
  | String c r =>
      if (c =? "0")%char then Some ("0", r)
      else if is_digit c then digits1 s
      else None
  | EmptyString => None
  end.

Definition parse_frac (s : string) : option (string * string) :=
  match s with
  | String "." r => prepend "." (digits1 r)
  | _ => Some (EmptyString, s)
  end.

Definition parse_exp (s : string) : option (string * string) :=
  match s with
  | String c r =>
      if (c =? "e")%char || (c =? "E")%char then
        match r with
        | String sg r' =>
            if (sg =? "+")%char || (sg =? "-")%char
            then prepend (String c (String sg EmptyString)) (digits1 r')
            else prepend (String c EmptyString) (digits1 r)
        | EmptyString => None
        end
      else Some (EmptyString, s)
  | EmptyString => Some (EmptyString, s)
  end.

Definition parse_number (s : string) : option (string * string) :=
  let (sign, s0) :=
    match s with
    | String "-" r => ("-", r)
    | _ => (EmptyString, s)
    end in
  match parse_int s0 with
  | Some (i, s1) =>
      match parse_frac s1 with
      | Some (f, s2) =>
          match parse_exp s2 with
          | Some (e, s3) =>
              Some (String.append sign (String.append i (String.append f e)), s3)
          | None => None
          end
      | None => None
      end
  | None => None
  end.

Fixpoint strip_prefix (p s : string) : option string :=
  match p, s with
  | EmptyString, _ => Some s
  | String a p', String b s' => if (a =? b)%char then strip_prefix p' s' else None
  | String _ _, EmptyString => None
  end.

(** One value, then the text after it.  Every call spends one unit of
    [fuel]; a text of [n] characters needs fewer than [2 * n + 2]. *)
Fixpoint parse_value (fuel : nat) (s : string) : option (value * string) :=
  match fuel with
  | O => None
  | S fuel' =>
      match skip_ws s with
      | EmptyString => None
      | String c r =>
          if (c =? "034")%char then
            match parse_chars r with
            | Some (x, rest) => Some (Str x, rest)
            | None => None
            end
          else if (c =? "[")%char then
            match skip_ws r with
            | String "]" rest => Some (Array [], rest)
            | _ =>
                match parse_elements fuel' r with
                | Some (l, rest) => Some (Array l, rest)
                | None => None
                end
            end
          else if (c =? "{")%char then
            match skip_ws r with
            | String "}" rest => Some (Object [], rest)
            | _ =>
                match parse_members fuel' r with
                | Some (m, rest) => Some (Object m, rest)
                | None => None
                end
            end
          else if (c =? "t")%char then
            match strip_prefix "rue" r with
            | Some rest => Some (Bool true, rest)
            | None => None
            end
          else if (c =? "f")%char then
            match strip_prefix "alse" r with
            | Some rest => Some (Bool false, rest)
            | None => None
            end
          else if (c =? "n")%char then
            match strip_prefix "ull" r with
            | Some rest => Some (Null, rest)
            | None => None
            end
          else
            match parse_number (String c r) with
            | Some (n, rest) => Some (Number n, rest)
            | None => None
            end
      end
  end

(** The elements of a non-empty array up to and with its bracket. *)
with parse_elements (fuel : nat) (s : string) : option (list value * string) :=
  match fuel with
  | O => None
  | S fuel' =>
      match parse_value fuel' s with
      | Some (v, rest) =>
          match skip_ws rest with
          | String "]" rest' => Some ([v], rest')
          | String "," rest' =>
              match parse_elements fuel' rest' with
              | Some (l, rest'') => Some (v :: l, rest'')
              | None => None
              end
          | _ => None
          end
      | None => None
      end
  end

(** The members of a non-empty object up to and with its brace. *)
with parse_members (fuel : nat) (s : string)
  : option (list (string * value) * string) :=
  match fuel with
  | O => None
  | S fuel' =>
      match skip_ws s with
      | String "034" r =>
          match parse_chars r with
          | Some (k, rest) =>
              match skip_ws rest with
              | String ":" rest' =>
                  match parse_value fuel' rest' with
                  | Some (v, rest'') =>
                      match skip_ws rest'' with
                      | String "}" rest3 => Some ([(k, v)], rest3)
                      | String "," rest3 =>
                          match parse_members fuel' rest3 with
                          | Some (m, rest4) => Some ((k, v) :: m, rest4)
                          | None => None
                          end
                      | _ => None
                      end
                  | None => None
                  end
              | _ => None
              end
          | None => None
          end
      | _ => None
      end
  end.

(** [JSON.parse text]: [None] stands for the [SyntaxError] it raises. *)
Definition parse (text : string) : option value :=
  match parse_value (2 * String.length text + 2) text with
  | Some (v, rest) =>
      match skip_ws rest with
      | EmptyString => Some v
      | String _ _ => None
      end
  | None => None
  end.

Definition hex_char (n : nat) : ascii :=
  if (n <? 10)%nat then ascii_of_nat (48 + n) else ascii_of_nat (87 + n).

(** How [JSON.stringify] writes one character of a string. *)
Definition escape_char (c : ascii) : string :=
  if (c =? "034")%char then String "\" (String "034" EmptyString)
  else if (c =? "\")%char then "\\"
  else if (c =? "008")%char then "\b"
  else if (c =? "012")%char then "\f"
  else if (c =? "010")%char then "\n"
  else if (c =? "013")%char then "\r"
  else if (c =? "009")%char then "\t"
  else if (nat_of_ascii c <? 32)%nat then
    String.append "\u00"
      (String (hex_char (nat_of_ascii c / 16))
        (String (hex_char (nat_of_ascii c mod 16)) EmptyString))
  else String c EmptyString.

Fixpoint escape (s : string) : string :=
  match s with
  | EmptyString => EmptyString
  | String c r => String.append (escape_char c) (escape r)
  end.

Definition quote (s : string) : string :=
  String "034" (String.append (escape s) (String "034" EmptyString)).

Fixpoint stringify_elements (l : list string) : string :=
  match l with
  | [] => "]"
  | [x] => String.append (quote x) "]"
  | x :: r => String.append (quote x) (String "," (stringify_elements r))
  end.

(** [JSON.stringify l] for an array of strings [l]. *)
Definition stringify (l : list string) : string :=
  String "[" (stringify_elements l).

End JSON.


(** ** Objects used as dictionaries

    [Object.create(null)] gives an object with no inherited property, so
    a read finds exactly what was written.  The entries are kept in the
    order of their creation, the order [for..in] and [Object.keys] list
    them in (keys that are array indices would come first; extension
    ids and glob patterns are none); a write to a key that is there
    keeps its place. *)
Abbreviation dict V := (list (string * V)).

Fixpoint dict_get {V : Type} (d : dict V) (k : string) : option V :=
  match d with
  | [] => None
  | (k', v) :: d' => if String.eqb k' k then Some v else dict_get d' k
  end.

Fixpoint dict_set {V : Type} (d : dict V) (k : string) (v : V) : dict V :=
  match d with
  | [] => [(k, v)]
  | (k', v') :: d' =>
      if String.eqb k' k then (k', v) :: d' else (k', v') :: dict_set d' k v
  end.

Definition Object_keys {V : Type} (d : dict V) : list string := map fst d.

(** [xs.indexOf(x)]: the first position of [x], or [-1]. *)
Fixpoint indexOf (xs : list string) (x : string) : Z :=
  match xs with
  | [] => (-1)%Z
  | y :: r =>
      if String.eqb y x then 0%Z
      else let i := indexOf r x in if (i =? -1)%Z then (-1)%Z else (i + 1)%Z
  end.

(** ** The services around the engine *)

Inductive StorageScope : Set := GLOBAL | WORKSPACE.

#[global] Instance StorageScope_eq_dec : EqDecision StorageScope.
Proof. solve_decision. Defined.

#[global] Instance StorageScope_countable : Countable StorageScope :=
  inj_countable'
    (fun s => match s with GLOBAL => false | WORKSPACE => true end)
    (fun b => if b then WORKSPACE else GLOBAL)
    (fun s => match s with GLOBAL => eq_refl | WORKSPACE => eq_refl end).

(** What [store] was given: the engine stores texts and one boolean. *)
Inductive stored : Set :=
  | Text (s : string)
  | Flag (b : bool).

(** Modelled from the spec: the storage service ([IStorageService] of
    [vs/platform/storage/common/storage]) is not among the sources.  The
    spec gives it as a key-value store with the scopes [GLOBAL] and
    [WORKSPACE] and the operations [get(key, scope, default) -> string],
    [set(key, scope, value)] (the [store] of the source) and
    [getBoolean(key, scope, default) -> bool]; it is the sole source of
    the initial state and the sole sink of every change.  A key is read
    back as it was stored and the default is given for a key never
    stored. *)
Abbreviation Storage := (gmap (StorageScope * string) stored).

(** Modelled from the spec: [get(key, scope, default) -> string] of the
    storage service; a stored boolean is read as its text. *)
Definition storage_get (st : Storage) (key : string) (scope : StorageScope)
    (defaultValue : string) : string :=
  match st !! (scope, key) with
  | Some (Text s) => s
  | Some (Flag b) => if b then "true" else "false"
  | None => defaultValue
  end.

(** Modelled from the spec: [getBoolean(key, scope, default) -> bool]
    of the storage service; a stored text is true when it is [true]. *)
Definition storage_getBoolean (st : Storage) (key : string)
    (scope : StorageScope) (defaultValue : bool) : bool :=
  match st !! (scope, key) with
  | Some (Flag b) => b
  | Some (Text s) => String.eqb s "true"
  | None => defaultValue
  end.

(** Modelled from the spec: [set(key, scope, value) -> void] of the
    storage service, the [store] of the source. *)
Definition storage_store (st : Storage) (key : string) (v : stored)
    (scope : StorageScope) : Storage :=
  <[(scope, key) := v]> st.

Record URI : Set := { fsPath : string }.

Record IExtensionManifest : Set := { name : string; publisher : string }.

Record ILocalExtension : Set := { manifest : IExtensionManifest }.

(** What the injected services and the product descriptor answer.
    [glob_match] is the [match] of [vs/base/common/glob]; a tip map is
    the list of its entries as [for..in] gives them. *)
Record Host : Type := {
  galleryService_isEnabled : bool;
  product_extensionTips : option (dict string);
  product_extensionImportantTips : option (dict string);
  configuration_recommendations : option (list string);
  modelService_getModels : list (option URI);
  glob_match : string -> string -> bool
}.

(** ** The state of the engine and of its surroundings *)

Inductive IDisposable : Set := ModelAddedListener.

Record ExtensionTipsService : Type := {
  _recommendations : dict bool;
  _availableRecommendations : dict (list string);
  importantRecommendations : option (dict string);
  importantRecommendationsIgnoreList : option (list string);
  _disposables : list IDisposable
}.

(** A pending [getInstalled(...)] with the callback given to [done].
    [done] is given this one callback, for the resolved promise; a
    rejected promise runs none. *)
Inductive Continuation : Set :=
  | SuggestInstalled (uri : URI)
  | WorkspaceInstalled (allRecommendations : list string).

(** A call of [messageService.show].  Each message carries the actions
    "Show Recommendations", "Don't show again" and "Close". *)
Inductive Message : Set :=
  | ReallyRecommended (id : string)
  | WorkspaceRecommended.

Inductive ActionId : Set := ShowRecommendations | NeverShowAgain | Close.

Record World : Type := {
  service : ExtensionTipsService;
  storage : Storage;
  immediates : list URI;
  installedQueries : list Continuation;
  messages : list Message
}.

Definition set_service (f : ExtensionTipsService -> ExtensionTipsService)
    (w : World) : World :=
  {| service := f (service w); storage := storage w;
     immediates := immediates w; installedQueries := installedQueries w;
     messages := messages w |}.

Definition set_storage (st : Storage) (w : World) : World :=
  {| service := service w; storage := st;
     immediates := immediates w; installedQueries := installedQueries w;
     messages := messages w |}.

Definition set_immediates (q : list URI) (w : World) : World :=
  {| service := service w; storage := storage w;
     immediates := q; installedQueries := installedQueries w;
     messages := messages w |}.

Definition set_installedQueries (q : list Continuation) (w : World) : World :=
  {| service := service w; storage := storage w;
     immediates := immediates w; installedQueries := q;
     messages := messages w |}.

(** [messageService.show(...)] *)
Definition show (m : Message) (w : World) : World :=
  {| service := service w; storage := storage w;
     immediates := immediates w; installedQueries := installedQueries w;
     messages := messages w ++ [m] |}.

(** [extensionsService.getInstalled(...).done(k)] *)
Definition getInstalled_done (k : Continuation) (w : World) : World :=
  set_installedQueries (installedQueries w ++ [k]) w.

Definition recommendationsKey : string := "extensionsAssistant/recommendations".
Definition importantRecommendationsIgnoreKey : string :=
  "extensionsAssistant/importantRecommendationsIgnore".
Definition workspaceRecommendationsIgnoreKey : string :=
  "extensionsAssistant/workspaceRecommendationsIgnore".

(** ** The engine *)

(** How a run of the constructor ends.  [JSON.parse] raises
    [SyntaxError]; nothing catches it.  The source casts what
    [JSON.parse] returns to [string[]] without a check: a stored text
    whose value is of another shape lies outside that type, and the run
    is left open there ([Untyped]). *)
Inductive Completion (A : Type) : Type :=
  | Returned (a : A)
  | SyntaxError
  | Untyped.

Arguments Returned {A} a.
Arguments SyntaxError {A}.
Arguments Untyped {A}.

(** The value of a JSON text at the type [string[]]. *)
Fixpoint as_strings (l : list JSON.value) : option (list string) :=
  match l with
  | [] => Some []
  | JSON.Str s :: r =>
      match as_strings r with
      | Some ss => Some (s :: ss)
      | None => None
      end
  | _ :: _ => None
  end.

Definition as_string_array (v : JSON.value) : option (list string) :=
  match v with
  | JSON.Array l => as_strings l
  | _ => None
  end.

(** The fields as their initialisers leave them, before the body of the
    constructor runs. *)
Definition fields : ExtensionTipsService :=
  {| _recommendations := [];
     _availableRecommendations := [];
     importantRecommendations := None;
     importantRecommendationsIgnoreList := None;
     _disposables := [] |}.

Definition start (st : Storage) : World :=
  {| service := fields; storage := st; immediates := [];
     installedQueries := []; messages := [] |}.

Definition getWorkspaceRecommendations (h : Host) : list string :=
  match configuration_recommendations h with
  | Some l => l
  | None => []
  end.

Definition getRecommendations (w : World) : list string :=
  Object_keys (_recommendations (service w)).

(** [for (let id of ids) this._recommendations[id] = true] *)
Definition recommend_all (ids : list string) (recs : dict bool) : dict bool :=
  fold_left (fun d id => dict_set d id true) ids recs.

(** Modelled from the spec: [forEach] of [vs/base/common/collections]
    is not among the sources.  The spec has the index built from every
    entry of the tip map, in the order the ids are met, and has every
    [(pattern, ids)] of the index tried against a document; so
    [forEach] is a visit of every entry of a dictionary in its order,
    written here as [fold_left] of the callback over the entries.  The
    callbacks of this file return nothing. *)

(** The callback that groups the ids by pattern. *)
Definition group_tip (index : dict (list string)) (entry : string * string)
  : dict (list string) :=
  let (id, pattern) := entry in
  match dict_get index pattern with
  | None => dict_set index pattern [id]
  | Some ids => dict_set index pattern (ids ++ [id])
  end.

(** The index built by [forEach(extensionTips, ...)], like
    [{**/*.md} -> [ext.foo1, ext.bar2]]. *)
Definition group_tips (extensionTips : dict string) : dict (list string) :=
  fold_left group_tip extensionTips [].

(** [_suggest(uri)] up to its [setImmediate]: the callback is queued
    together with the [uri] it closes over. *)
Definition _suggest (uri : option URI) (w : World) : World :=
  match uri with
  | None => w
  | Some u => set_immediates (immediates w ++ [u]) w
  end.

Definition _suggestTips (h : Host) (w : World) : Completion World :=
  match product_extensionTips h with
  | None => Returned w
  | Some extensionTips =>
      let important :=
        match product_extensionImportantTips h with
        | Some tips => tips
        | None => []
        end in
      match JSON.parse (storage_get (storage w)
                          importantRecommendationsIgnoreKey GLOBAL "[]") with
      | None => SyntaxError
      | Some ignoreValue =>
          match JSON.parse (storage_get (storage w)
                              recommendationsKey GLOBAL "[]") with
          | None => SyntaxError
          | Some storedValue =>
              match as_string_array ignoreValue, as_string_array storedValue with
              | Some ignoreList, Some storedRecommendations =>
                  let w1 :=
                    set_service (fun s =>
                      {| _recommendations :=
                           recommend_all storedRecommendations (_recommendations s);
                         _availableRecommendations := group_tips extensionTips;
                         importantRecommendations := Some important;
                         importantRecommendationsIgnoreList := Some ignoreList;
                         _disposables := _disposables s ++ [ModelAddedListener] |}) w in
                  Returned
                    (fold_left (fun w' uri => _suggest uri w')
                       (modelService_getModels h) w1)
              | _, _ => Untyped
              end
          end
      end
  end.

(** The callback of [forEach(this._availableRecommendations, ...)]. *)
Definition recommend_matching (h : Host) (path : string) (recs : dict bool)
    (entry : string * list string) : dict bool :=
  let (pattern, ids) := entry in
  if glob_match h pattern path then recommend_all ids recs else recs.

(** The body of the [setImmediate] callback of [_suggest], up to the
    call of [getInstalled]. *)
Definition _suggest_immediate (h : Host) (uri : URI) (w : World) : World :=
  let w1 :=
    set_service (fun s =>
      {| _recommendations :=
           fold_left (recommend_matching h (fsPath uri))
             (_availableRecommendations s) (_recommendations s);
         _availableRecommendations := _availableRecommendations s;
         importantRecommendations := importantRecommendations s;
         importantRecommendationsIgnoreList := importantRecommendationsIgnoreList s;
         _disposables := _disposables s |}) w in
  let w2 :=
    set_storage
      (storage_store (storage w1) recommendationsKey
         (Text (JSON.stringify (Object_keys (_recommendations (service w1)))))
         GLOBAL) w1 in
  getInstalled_done (SuggestInstalled uri) w2.

(** [`${local.manifest.publisher}.${local.manifest.name}`] *)
Definition installed_id (l : ILocalExtension) : string :=
  String.append (publisher (manifest l)) (String.append "." (name (manifest l))).

(** [local.every(local => `...` !== id)] *)
Definition not_installed (local : list ILocalExtension) (id : string) : bool :=
  forallb (fun l => negb (String.eqb (installed_id l) id)) local.

(** The callback of the [forEach] over the ids that passed both filters. *)
Definition suggest_important (h : Host) (uri : URI) (important : dict string)
    (w : World) (id : string) : World :=
  match dict_get important id with
  | Some pattern =>
      if negb (glob_match h pattern (fsPath uri)) then w
      else show (ReallyRecommended id) w
  | None => w
  end.

(** The callback given to [done] in [_suggest].  With the two fields
    undefined [Object.keys] would raise inside the callback and nothing
    would be shown. *)
Definition _suggest_installed (h : Host) (uri : URI)
    (local : list ILocalExtension) (w : World) : World :=
  match importantRecommendations (service w),
        importantRecommendationsIgnoreList (service w) with
  | Some important, Some ignoreList =>
      fold_left (suggest_important h uri important)
        (List.filter (not_installed local)
           (List.filter (fun id => (indexOf ignoreList id =? -1)%Z)
              (Object_keys important)))
        w
  | _, _ => w
  end.

Definition _suggestWorkspaceRecommendations (h : Host) (w : World) : World :=
  if storage_getBoolean (storage w) workspaceRecommendationsIgnoreKey WORKSPACE false
  then w
  else
    let allRecommendations := getWorkspaceRecommendations h in
    if (length allRecommendations =? 0)%nat then w
    else getInstalled_done (WorkspaceInstalled allRecommendations) w.

(** The callback given to [done] in [_suggestWorkspaceRecommendations]. *)
Definition _suggestWorkspaceRecommendations_installed
    (allRecommendations : list string) (local : list ILocalExtension)
    (w : World) : World :=
  let recommendations := List.filter (not_installed local) allRecommendations in
  if (length recommendations =? 0)%nat then w
  else show WorkspaceRecommended w.

(** The "Don't show again" action of a message. *)
Definition neverAgainAction (m : Message) (w : World) : World :=
  match m with
  | ReallyRecommended id =>
      match importantRecommendationsIgnoreList (service w) with
      | Some ignoreList =>
          let ignoreList' := ignoreList ++ [id] in
          set_storage
            (storage_store (storage w) importantRecommendationsIgnoreKey
               (Text (JSON.stringify ignoreList')) GLOBAL)
            (set_service (fun s =>
               {| _recommendations := _recommendations s;
                  _availableRecommendations := _availableRecommendations s;
                  importantRecommendations := importantRecommendations s;
                  importantRecommendationsIgnoreList := Some ignoreList';
                  _disposables := _disposables s |}) w)
      | None => w
      end
  | WorkspaceRecommended =>
      set_storage
        (storage_store (storage w) workspaceRecommendationsIgnoreKey
           (Flag true) WORKSPACE) w
  end.

Definition dispose (w : World) : World :=
  set_service (fun s =>
    {| _recommendations := _recommendations s;
       _availableRecommendations := _availableRecommendations s;
       importantRecommendations := importantRecommendations s;
       importantRecommendationsIgnoreList := importantRecommendationsIgnoreList s;
       _disposables := [] |}) w.

(** The constructor, from the storage it is given. *)
Definition ExtensionTipsService_new (h : Host) (st : Storage) : Completion World :=
  if negb (galleryService_isEnabled h) then Returned (start st)
  else
    match _suggestTips h (start st) with
    | Returned w => Returned (_suggestWorkspaceRecommendations h w)
    | SyntaxError => SyntaxError
    | Untyped => Untyped
    end.

(** ** The event loop

    What can happen after the constructor has returned: the model
    service announces a document, the next [setImmediate] callback runs,
    a pending [getInstalled] resolves with a list or is rejected, the
    user runs an action of a shown message, the service is disposed. *)
Inductive Event : Type :=
  | ModelAdded (uri : option URI)
  | Immediate
  | Installed (q : nat) (local : list ILocalExtension)
  | InstalledRejected (q : nat)
  | RunAction (m : nat) (a : ActionId)
  | Dispose.

Definition resume (h : Host) (k : Continuation) (local : list ILocalExtension)
    (w : World) : World :=
  match k with
  | SuggestInstalled uri => _suggest_installed h uri local w
  | WorkspaceInstalled allRecommendations =>
      _suggestWorkspaceRecommendations_installed allRecommendations local w
  end.

Definition handle (h : Host) (w : World) (e : Event) : World :=
  match e with
  | ModelAdded uri =>
      fold_left (fun w' _ => _suggest uri w') (_disposables (service w)) w
  | Immediate =>
      match immediates w with
      | [] => w
      | uri :: rest => _suggest_immediate h uri (set_immediates rest w)
      end
  | Installed q local =>
      match installedQueries w !! q with
      | Some k =>
          resume h k local (set_installedQueries (delete q (installedQueries w)) w)
      | None => w
      end
  | InstalledRejected q =>
      set_installedQueries (delete q (installedQueries w)) w
  | RunAction m a =>
      match messages w !! m, a with
      | Some msg, NeverShowAgain => neverAgainAction msg w
      | _, _ => w
      end
  | Dispose => dispose w
  end.

Definition run (h : Host) (evs : list Event) (w : World) : World :=
  fold_left (handle h) evs w.


(** ** Sample surroundings, for the runs the examples replay *)

Fixpoint ends_with (suffix s : string) : bool :=
  String.eqb suffix s ||
  match s with
  | String _ r => ends_with suffix r
  | EmptyString => false
  end.

(** A stand-in for the glob matcher: a pattern [**/*.x] matches the
    paths that end in [.x], any other pattern only itself. *)
Definition suffix_match (pattern path : string) : bool :=
  match pattern with
  | String "*" (String "*" (String "/" (String "*" ext))) => ends_with ext path
  | _ => String.eqb pattern path
  end.

Definition sample_host : Host :=
  {| galleryService_isEnabled := true;
     product_extensionTips :=
       Some [("foo.bar", "**/*.md"); ("foo.baz", "**/*.md"); ("ms.ts", "**/*.ts")];
     product_extensionImportantTips := Some [("ms.ts", "**/*.ts")];
     configuration_recommendations := Some ["pub.ext1"; "pub.ext2"];
     modelService_getModels := [];
     glob_match := suffix_match |}.

Definition readme : URI := {| fsPath := "README.md" |}.
Definition a_ts : URI := {| fsPath := "a.ts" |}.
Definition b_ts : URI := {| fsPath := "b.ts" |}.

Definition pub_ext1 : ILocalExtension :=
  {| manifest := {| name := "ext1"; publisher := "pub" |} |}.
Definition ms_ts : ILocalExtension :=
  {| manifest := {| name := "ts"; publisher := "ms" |} |}.

(** ** What holds of every world the loop reaches *)

(** The engine went through [_suggestTips]: the index is the one of the
    tip map and both important-recommendation fields are set. *)
Definition hydrated (h : Host) (w : World) : Prop :=
  exists tips important ignoreList,
    product_extensionTips h = Some tips /\
    _availableRecommendations (service w) = group_tips tips /\
    importantRecommendations (service w) = Some important /\
    importantRecommendationsIgnoreList (service w) = Some ignoreList.

(** The engine never went through [_suggestTips]: its fields are as the
    initialisers left them and nothing of [_suggest] is under way. *)
Definition dormant (w : World) : Prop :=
  service w = fields /\
  immediates w = [] /\
  (forall uri, ~ In (SuggestInstalled uri) (installedQueries w)) /\
  (forall id, ~ In (ReallyRecommended id) (messages w)).

Definition is_workspace_message (m : Message) : bool :=
  match m with
  | WorkspaceRecommended => true
  | ReallyRecommended _ => false
  end.

Definition is_workspace_query (k : Continuation) : bool :=
  match k with
  | WorkspaceInstalled _ => true
  | SuggestInstalled _ => false
  end.

(** How many workspace notifications were shown. *)
Definition workspace_messages (w : World) : nat :=
  length (List.filter is_workspace_message (messages w)).

Definition workspace_queries (w : World) : nat :=
  length (List.filter is_workspace_query (installedQueries w)).

(** The list stored under a key of the global scope, when the text
    there is an array of strings. *)
Definition stored_strings (st : Storage) (key : string) : option (list string) :=
  match JSON.parse (storage_get st key GLOBAL "[]") with
  | Some v => as_string_array v
  | None => None
  end.

(** [id] is on the ignore list of the engine and on the stored one. *)
Definition ignored (id : string) (w : World) : Prop :=
  (exists ignoreList,
     importantRecommendationsIgnoreList (service w) = Some ignoreList /\
     In id ignoreList) /\
  (exists persisted,
     stored_strings (storage w) importantRecommendationsIgnoreKey = Some persisted /\
     In id persisted).

(** The ids the important-recommendation gate notifies for. *)
Definition important_notified (h : Host) (uri : URI) (important : dict string)
    (ignoreList : list string) (local : list ILocalExtension) : list string :=
  List.filter
    (fun id => match dict_get important id with
               | Some pattern => glob_match h pattern (fsPath uri)
               | None => false
               end)
    (List.filter (not_installed local)
       (List.filter (fun id => (indexOf ignoreList id =? -1)%Z)
          (Object_keys important))).

(** The ids the callback of [_suggest] notifies for in a world. *)
Definition suggest_installed_ids (h : Host) (uri : URI)
    (local : list ILocalExtension) (w : World) : list string :=
  match importantRecommendations (service w),
        importantRecommendationsIgnoreList (service w) with
  | Some important, Some ignoreList =>
      important_notified h uri important ignoreList local
  | _, _ => []
  end.

(** The messages an event adds. *)
Definition emitted (h : Host) (w : World) (e : Event) : list Message :=
  match e with
  | Installed q local =>
      match installedQueries w !! q with
      | Some (SuggestInstalled uri) =>
          map ReallyRecommended (suggest_installed_ids h uri local w)
      | Some (WorkspaceInstalled allRecommendations) =>
          if (length (List.filter (not_installed local) allRecommendations) =? 0)%nat
          then [] else [WorkspaceRecommended]
      | None => []
      end
  | _ => []
  end.

(** The messages a run adds, event after event. *)
Fixpoint emitted_run (h : Host) (evs : list Event) (w : World) : list Message :=
  match evs with
  | [] => []
  | e :: evs' => emitted h w e ++ emitted_run h evs' (handle h w e)
  end.

(** The engine of the sample surroundings over an empty storage. *)
Definition sample_world : World :=
  match ExtensionTipsService_new sample_host ∅ with
  | Returned w => w
  | _ => start ∅
  end.

(** A storage whose recommendations key holds a text that is no JSON. *)
Definition broken_storage : Storage :=
  {[ (GLOBAL, recommendationsKey) := Text "{" ]}.

(** Surroundings with the gallery switched off. *)
Definition disabled_host : Host :=
  {| galleryService_isEnabled := false;
     product_extensionTips := product_extensionTips sample_host;
     product_extensionImportantTips := product_extensionImportantTips sample_host;
     configuration_recommendations := configuration_recommendations sample_host;
     modelService_getModels := [Some readme];
     glob_match := suffix_match |}.

(** Surroundings whose product descriptor has no tip map. *)
Definition tipless_host : Host :=
  {| galleryService_isEnabled := true;
     product_extensionTips := None;
     product_extensionImportantTips := product_extensionImportantTips sample_host;
     configuration_recommendations := Some ["pub.ext2"];
     modelService_getModels := [Some a_ts];
     glob_match := suffix_match |}.

(** Surroundings whose tip map is there and empty. *)
Definition empty_tips_host : Host :=
  {| galleryService_isEnabled := true;
     product_extensionTips := Some [];
     product_extensionImportantTips := product_extensionImportantTips sample_host;
     configuration_recommendations := None;
     modelService_getModels := [Some a_ts];
     glob_match := suffix_match |}.

(** A storage that holds a recommendation of an earlier session. *)
Definition earlier_storage : Storage :=
  {[ (GLOBAL, recommendationsKey) := Text (JSON.stringify ["old.one"]) ]}.

Definition earlier_world : World :=
  match ExtensionTipsService_new sample_host earlier_storage with
  | Returned w => w
  | _ => start earlier_storage
  end.

(** ** Notions for the further properties *)

(** The ids a tip map gives for a pattern, in the order of the map. *)
Definition tip_ids_for (pattern : string) (extensionTips : dict string)
  : list string :=
  map fst (List.filter (fun entry => String.eqb (snd entry) pattern) extensionTips).

(** The uris of the models that have one, in the order of the models. *)
Fixpoint model_uris (models : list (option URI)) : list URI :=
  match models with
  | [] => []
  | Some uri :: r => uri :: model_uris r
  | None :: r => model_uris r
  end.

(** The important-recommendation messages shown so far. *)
Definition important_messages (w : World) : list Message :=
  List.filter (fun m => negb (is_workspace_message m)) (messages w).

(** The stored recommendations read back as [getRecommendations()]. *)
Definition recommendations_synced (w : World) : Prop :=
  stored_strings (storage w) recommendationsKey = Some (getRecommendations w).

(** The stored ignore list reads back as the one of the engine. *)
Definition ignoreList_synced (w : World) : Prop :=
  forall ignoreList,
    importantRecommendationsIgnoreList (service w) = Some ignoreList ->
    stored_strings (storage w) importantRecommendationsIgnoreKey = Some ignoreList.

(** The keys the engine stores under. *)
Definition engine_keys : list (StorageScope * string) :=
  [(GLOBAL, recommendationsKey);
   (GLOBAL, importantRecommendationsIgnoreKey);
   (WORKSPACE, workspaceRecommendationsIgnoreKey)].

(** Surroundings with two models open when the engine starts, one of
    them without a uri. *)
Definition busy_host : Host :=
  {| galleryService_isEnabled := true;
     product_extensionTips := product_extensionTips sample_host;
     product_extensionImportantTips := None;
     configuration_recommendations := Some [];
     modelService_getModels := [Some readme; None; Some a_ts];
     glob_match := suffix_match |}.

Definition busy_world : World :=
  match ExtensionTipsService_new busy_host ∅ with
  | Returned w => w
  | _ => start ∅
  end.

(** A storage whose recommendations list names an id twice. *)
Definition doubled_storage : Storage :=
  {[ (GLOBAL, recommendationsKey) := Text (JSON.stringify ["foo.bar"; "foo.bar"]) ]}.

Definition doubled_world : World :=
  match ExtensionTipsService_new sample_host doubled_storage with
  | Returned w => w
  | _ => start doubled_storage
  end.

(** The engine of [busy_host] started from the storage a run of the
    sample engine leaves. *)
Definition restarted_world : World :=
  match ExtensionTipsService_new busy_host
          (storage (run sample_host
                      ([ModelAdded (Some readme)] ++ Immediate :: [InstalledRejected 0])
                      sample_world)) with
  | Returned w => w
  | _ => start ∅
  end.
(** ** Facts on JSON texts *)
Module JSONFacts.
Import JSON.

Lemma append_cons (x : ascii) (a b : string) :
  String.append (String x a) b = String x (String.append a b).
Proof. reflexivity. Qed.

Lemma append_nil_l (b : string) : String.append EmptyString b = b.
Proof. reflexivity. Qed.

Lemma append_nil_r (a : string) : String.append a EmptyString = a.
Proof. induction a as [|x a IH]; [reflexivity|]. rewrite append_cons. congruence. Qed.

Lemma append_assoc (a b c : string) :
  String.append (String.append a b) c = String.append a (String.append b c).
Proof.
  induction a as [|x a IH]; [reflexivity|].
  rewrite !append_cons. congruence.
Qed.

Lemma length_append (a b : string) :
  String.length (String.append a b) = (String.length a + String.length b)%nat.
Proof.
  induction a as [|x a IH]; [reflexivity|].
  rewrite append_cons. simpl. congruence.
Qed.

Lemma parse_chars_escape_char (c : ascii) (rest : string) :
  parse_chars (String.append (escape_char c) rest)
  = prepend (String c EmptyString) (parse_chars rest).
Proof.
  destruct c as [[] [] [] [] [] [] [] []]; reflexivity.
Qed.

Lemma parse_chars_escape (s rest : string) :
  parse_chars (String.append (escape s) (String "034" rest)) = Some (s, rest).
Proof.
  induction s as [|c s IH]; cbn [escape].
  - reflexivity.
  - rewrite append_assoc, parse_chars_escape_char, IH. reflexivity.
Qed.

Lemma quote_cons (s rest : string) :
  String.append (quote s) rest
  = String "034" (String.append (escape s) (String "034" rest)).
Proof. unfold quote. rewrite append_cons, append_assoc. reflexivity. Qed.

Lemma parse_value_quote (fuel : nat) (s rest : string) :
  (1 <= fuel)%nat ->
  parse_value fuel (String.append (quote s) rest) = Some (Str s, rest).
Proof.
  intros Hfuel. destruct fuel as [|fuel]; [lia|].
  rewrite quote_cons. simpl. now rewrite parse_chars_escape.
Qed.

Lemma stringify_elements_cons2 (x y : string) (l : list string) :
  stringify_elements (x :: y :: l)
  = String.append (quote x) (String "," (stringify_elements (y :: l))).
Proof. reflexivity. Qed.

Lemma parse_elements_stringify (l : list string) :
  l <> [] ->
  forall (fuel : nat) (rest : string),
    (2 * length l <= fuel)%nat ->
    parse_elements fuel (String.append (stringify_elements l) rest)
    = Some (map Str l, rest).
Proof.
  induction l as [|x l IH]; [congruence|]. intros _ fuel rest Hfuel.
  destruct fuel as [|fuel]; [simpl in Hfuel; lia|].
  destruct l as [|y l].
  - change (stringify_elements [x]) with (String.append (quote x) "]").
    rewrite append_assoc.
    cbn [parse_elements]. rewrite parse_value_quote by (simpl in Hfuel; lia).
    reflexivity.
  - rewrite stringify_elements_cons2, append_assoc.
    cbn [parse_elements]. rewrite parse_value_quote by (simpl in Hfuel; lia).
    rewrite append_cons.
    cbn [skip_ws is_ws Ascii.eqb Bool.eqb orb].
    rewrite IH; [reflexivity | congruence | simpl in *; lia].
Qed.

Lemma length_stringify_elements (l : list string) :
  (length l <= String.length (stringify_elements l))%nat.
Proof.
  induction l as [|x l IH]; [simpl; lia|].
  destruct l as [|y l].
  - simpl. lia.
  - rewrite stringify_elements_cons2, length_append.
    set (t := stringify_elements (y :: l)) in *.
    cbn [String.length]. cbn [length] in *. lia.
Qed.

(** What [JSON.stringify] writes for an array of strings, [JSON.parse]
    reads back as that array. *)
Lemma parse_stringify (l : list string) :
  parse (stringify l) = Some (Array (map Str l)).
Proof.
  destruct l as [|x l]; [reflexivity|].
  unfold parse, stringify.
  pose proof (length_stringify_elements (x :: l)) as Hlen.
  set (n := String.length (String "[" (stringify_elements (x :: l)))).
  assert (Hn : (2 * length (x :: l) <= 2 * n + 1)%nat)
    by (subst n; cbn [String.length]; cbn [length] in *; lia).
  replace (2 * n + 2)%nat with (S (2 * n + 1)) by lia.
  pose proof (parse_elements_stringify (x :: l) ltac:(congruence)
                (2 * n + 1)%nat EmptyString Hn) as H.
  rewrite append_nil_r in H.
  cbn [parse_value skip_ws is_ws Ascii.eqb Bool.eqb orb].
  assert (Hq : exists r, stringify_elements (x :: l) = String "034" r).
  { destruct l; [|rewrite stringify_elements_cons2];
      unfold stringify_elements, quote; rewrite append_cons; eauto. }
  destruct Hq as [r Hr]. rewrite Hr in *.
  cbn [skip_ws is_ws Ascii.eqb Bool.eqb orb].
  rewrite H. reflexivity.
Qed.

End JSONFacts.

(** ** Facts on dictionaries and lists *)

Lemma in_keys_dict_set {V : Type} (d : dict V) (k : string) (v : V) (k' : string) :
  In k' (Object_keys (dict_set d k v)) <-> k' = k \/ In k' (Object_keys d).
Proof.
  induction d as [|[k0 v0] d IH]; simpl.
  - intuition congruence.
  - destruct (String.eqb_spec k0 k) as [->|Hne]; simpl.
    + intuition congruence.
    + rewrite IH. intuition congruence.
Qed.

Lemma keys_dict_set_in {V : Type} (d : dict V) (k : string) (v : V) :
  In k (Object_keys d) -> Object_keys (dict_set d k v) = Object_keys d.
Proof.
  induction d as [|[k0 v0] d IH]; simpl; [tauto|].
  intros Hin. destruct (String.eqb_spec k0 k) as [->|Hne]; simpl; [reflexivity|].
  f_equal. apply IH. destruct Hin; [congruence | assumption].
Qed.

Lemma in_recommend_all (ids : list string) (d : dict bool) (id : string) :
  In id (Object_keys (recommend_all ids d)) <-> In id ids \/ In id (Object_keys d).
Proof.
  unfold recommend_all. revert d.
  induction ids as [|x ids IH]; intros d; simpl; [tauto|].
  rewrite IH, in_keys_dict_set. intuition congruence.
Qed.

Lemma keys_recommend_all_in (ids : list string) (d : dict bool) :
  (forall id, In id ids -> In id (Object_keys d)) ->
  Object_keys (recommend_all ids d) = Object_keys d.
Proof.
  unfold recommend_all. revert d.
  induction ids as [|x ids IH]; intros d Hin; simpl; [reflexivity|].
  rewrite IH.
  - apply keys_dict_set_in, Hin. now left.
  - intros id Hid. apply in_keys_dict_set. right. apply Hin. now right.
Qed.

Lemma in_fold_recommend_matching (h : Host) (path : string)
    (index : dict (list string)) (d : dict bool) (id : string) :
  In id (Object_keys (fold_left (recommend_matching h path) index d)) <->
  In id (Object_keys d) \/
  exists pattern ids,
    In (pattern, ids) index /\ glob_match h pattern path = true /\ In id ids.
Proof.
  revert d. induction index as [|[p ids] index IH]; intros d; simpl.
  - split; [tauto | intros [H|(p & ids & [] & _)]; exact H].
  - rewrite IH. unfold recommend_matching.
    destruct (glob_match h p path) eqn:Hm.
    + rewrite in_recommend_all. split.
      * intros [[H|H]|(p' & ids' & H1 & H2 & H3)]; eauto 10.
      * intros [H|(p' & ids' & [Heq|H1] & H2 & H3)]; eauto 10.
        inversion Heq; subst. auto.
    + split.
      * intros [H|(p' & ids' & H1 & H2 & H3)]; eauto 10.
      * intros [H|(p' & ids' & [Heq|H1] & H2 & H3)]; eauto 10.
        inversion Heq; subst. congruence.
Qed.

Lemma keys_fold_recommend_matching_in (h : Host) (path : string)
    (index : dict (list string)) (d : dict bool) :
  (forall pattern ids id,
      In (pattern, ids) index -> glob_match h pattern path = true ->
      In id ids -> In id (Object_keys d)) ->
  Object_keys (fold_left (recommend_matching h path) index d) = Object_keys d.
Proof.
  revert d. induction index as [|[p ids] index IH]; intros d Hin;
    cbn [fold_left]; [reflexivity|].
  assert (Hstep : Object_keys (recommend_matching h path d (p, ids)) = Object_keys d).
  { unfold recommend_matching. destruct (glob_match h p path) eqn:Hm; [|reflexivity].
    apply keys_recommend_all_in. intros id Hid. apply (Hin p ids); simpl; auto. }
  rewrite IH; [exact Hstep|].
  intros p' ids' id H1 H2 H3. rewrite Hstep. apply (Hin p' ids'); simpl; auto.
Qed.

Lemma indexOf_in (xs : list string) (x : string) :
  indexOf xs x = (-1)%Z <-> ~ In x xs.
Proof.
  assert (Hge : forall ys, (-1 <= indexOf ys x)%Z).
  { induction ys as [|y ys IH]; simpl; [lia|].
    destruct (String.eqb y x); [lia|].
    destruct (Z.eqb_spec (indexOf ys x) (-1)); lia. }
  induction xs as [|y xs IH]; simpl; [tauto|].
  destruct (String.eqb_spec y x) as [->|Hne].
  - split; [lia | intros H; exfalso; apply H; now left].
  - destruct (Z.eqb_spec (indexOf xs x) (-1)) as [He|He].
    + split; [|reflexivity]. intros _ [H|H]; [congruence | now apply IH].
    + specialize (Hge xs). split; [lia|].
      intros H. exfalso. apply He, IH. tauto.
Qed.

Lemma not_installed_spec (local : list ILocalExtension) (id : string) :
  not_installed local id = true <->
  forall l, In l local -> installed_id l <> id.
Proof.
  unfold not_installed. rewrite forallb_forall. split; intros H l Hl.
  - specialize (H l Hl). destruct (String.eqb_spec (installed_id l) id); [discriminate | assumption].
  - destruct (String.eqb_spec (installed_id l) id); [exfalso; eapply H; eauto | reflexivity].
Qed.

(** ** What each callback touches *)

Lemma fold_suggest_none (ds : list IDisposable) (w : World) :
  fold_left (fun w0 _ => _suggest None w0) ds w = w.
Proof. induction ds as [|d ds IH]; [reflexivity | exact IH]. Qed.

Lemma fold_suggest_some (u : URI) (ds : list IDisposable) (w : World) :
  fold_left (fun w0 _ => _suggest (Some u) w0) ds w
  = set_immediates (immediates w ++ map (fun _ => u) ds) w.
Proof.
  revert w. induction ds as [|d ds IH]; intros w; cbn [fold_left map].
  - rewrite app_nil_r. now destruct w.
  - rewrite IH. cbn [_suggest]. unfold set_immediates. simpl.
    now rewrite <- app_assoc.
Qed.

Lemma fold_suggest_models (models : list (option URI)) (w : World) :
  let w' := fold_left (fun w0 uri => _suggest uri w0) models w in
  service w' = service w /\ storage w' = storage w /\
  installedQueries w' = installedQueries w /\ messages w' = messages w.
Proof.
  revert w. induction models as [|uri models IH]; intros w; cbn [fold_left].
  - repeat split.
  - destruct (IH (_suggest uri w)) as (H1 & H2 & H3 & H4).
    destruct uri as [u|]; cbn [_suggest] in *; repeat split; assumption.
Qed.

(** The messages of the important-recommendation gate: one for each id
    that passed both filters and whose pattern matches. *)
Lemma fold_suggest_important (h : Host) (uri : URI) (important : dict string)
    (ids : list string) (w : World) :
  let w' := fold_left (suggest_important h uri important) ids w in
  service w' = service w /\ storage w' = storage w /\
  immediates w' = immediates w /\ installedQueries w' = installedQueries w /\
  messages w' =
    messages w ++
    map ReallyRecommended
      (List.filter
         (fun id => match dict_get important id with
                    | Some pattern => glob_match h pattern (fsPath uri)
                    | None => false
                    end) ids).
Proof.
  revert w. induction ids as [|id ids IH]; intros w; cbn [fold_left List.filter].
  - repeat split. cbn [map]. now rewrite app_nil_r.
  - destruct (IH (suggest_important h uri important w id)) as (H1 & H2 & H3 & H4 & H5).
    unfold suggest_important in *.
    destruct (dict_get important id) as [pattern|];
      [destruct (glob_match h pattern (fsPath uri))|]; cbn [negb] in *;
      repeat split; try assumption.
    rewrite H5. cbn [show messages map]. now rewrite <- app_assoc.
Qed.


(** ** One turn of the loop *)

Lemma suggest_installed_frame (h : Host) (uri : URI)
    (local : list ILocalExtension) (w : World) :
  let w' := _suggest_installed h uri local w in
  service w' = service w /\ storage w' = storage w /\
  immediates w' = immediates w /\ installedQueries w' = installedQueries w /\
  messages w' = messages w ++ map ReallyRecommended (suggest_installed_ids h uri local w).
Proof.
  unfold _suggest_installed, suggest_installed_ids.
  destruct (importantRecommendations (service w)) as [important|];
    [destruct (importantRecommendationsIgnoreList (service w)) as [ignoreList|]|].
  - apply fold_suggest_important.
  - cbn [map]. rewrite app_nil_r. repeat split.
  - cbn [map]. rewrite app_nil_r. repeat split.
Qed.

Lemma in_important_notified (h : Host) (uri : URI) (important : dict string)
    (ignoreList : list string) (local : list ILocalExtension) (id : string) :
  In id (important_notified h uri important ignoreList local) <->
  In id (Object_keys important) /\
  ~ In id ignoreList /\
  (forall l, In l local -> installed_id l <> id) /\
  exists pattern,
    dict_get important id = Some pattern /\
    glob_match h pattern (fsPath uri) = true.
Proof.
  unfold important_notified. rewrite !filter_In, not_installed_spec.
  rewrite Z.eqb_eq, indexOf_in.
  destruct (dict_get important id) as [pattern|].
  - split.
    + intros (((H1 & H2) & H3) & H4). eauto 10.
    + intros (H1 & H2 & H3 & p & [= <-] & H4). auto.
  - split.
    + intros (_ & H). discriminate.
    + intros (_ & _ & _ & p & H & _). discriminate.
Qed.

Ltac event_cases h w e :=
  destruct e as [[u|]| |q local|q|m [| |]|]; cbn [handle];
  [ rewrite fold_suggest_some
  | rewrite fold_suggest_none
  | destruct (immediates w) as [|u rest] eqn:Him
  | destruct (installedQueries w !! q) as [[u|allRecommendations]|] eqn:Hq
  | 
  | destruct (messages w !! m) as [[id'|]|] eqn:Hm
  | destruct (messages w !! m) as [[id'|]|] eqn:Hm
  | destruct (messages w !! m) as [[id'|]|] eqn:Hm
  | ].

Lemma workspace_installed_frame (allRecommendations : list string)
    (local : list ILocalExtension) (w : World) :
  let w' := _suggestWorkspaceRecommendations_installed allRecommendations local w in
  service w' = service w /\ storage w' = storage w /\
  immediates w' = immediates w /\ installedQueries w' = installedQueries w /\
  messages w' =
    messages w ++
    (if (length (List.filter (not_installed local) allRecommendations) =? 0)%nat
     then [] else [WorkspaceRecommended]).
Proof.
  unfold _suggestWorkspaceRecommendations_installed.
  destruct (length (List.filter (not_installed local) allRecommendations) =? 0)%nat;
    cbn [show service storage immediates installedQueries messages];
    rewrite ?app_nil_r; repeat split.
Qed.

Lemma handle_messages (h : Host) (w : World) (e : Event) :
  messages (handle h w e) = messages w ++ emitted h w e.
Proof.
  event_cases h w e; cbn [emitted resume]; rewrite ?Hq; rewrite ?app_nil_r;
    try reflexivity.
  - destruct (suggest_installed_frame h u local
                (set_installedQueries (delete q (installedQueries w)) w))
      as (_ & _ & _ & _ & H).
    rewrite H. reflexivity.
  - destruct (workspace_installed_frame allRecommendations local
                (set_installedQueries (delete q (installedQueries w)) w))
      as (_ & _ & _ & _ & H).
    rewrite H. reflexivity.
  - unfold neverAgainAction.
    destruct (importantRecommendationsIgnoreList (service w)); reflexivity.
Qed.

Lemma run_messages (h : Host) (evs : list Event) (w : World) :
  messages (run h evs w) = messages w ++ emitted_run h evs w.
Proof.
  unfold run. revert w. induction evs as [|e evs IH]; intros w;
    cbn [fold_left emitted_run].
  - now rewrite app_nil_r.
  - rewrite IH, handle_messages. now rewrite <- app_assoc.
Qed.

Lemma run_app (h : Host) (evs evs' : list Event) (w : World) :
  run h (evs ++ evs') w = run h evs' (run h evs w).
Proof. unfold run. apply fold_left_app. Qed.

(** The fields of the engine after one event. *)
Lemma handle_service (h : Host) (w : World) (e : Event) :
  let s := service w in
  let s' := service (handle h w e) in
  _availableRecommendations s' = _availableRecommendations s /\
  importantRecommendations s' = importantRecommendations s /\
  (forall id, In id (Object_keys (_recommendations s)) ->
              In id (Object_keys (_recommendations s'))) /\
  (forall l, importantRecommendationsIgnoreList s = Some l ->
     exists l', importantRecommendationsIgnoreList s' = Some (l ++ l')) /\
  (importantRecommendationsIgnoreList s = None ->
   importantRecommendationsIgnoreList s' = None).
Proof.
  assert (Hsame : forall s s' : ExtensionTipsService,
    _availableRecommendations s' = _availableRecommendations s ->
    importantRecommendations s' = importantRecommendations s ->
    _recommendations s' = _recommendations s ->
    importantRecommendationsIgnoreList s' = importantRecommendationsIgnoreList s ->
    _availableRecommendations s' = _availableRecommendations s /\
    importantRecommendations s' = importantRecommendations s /\
    (forall id, In id (Object_keys (_recommendations s)) ->
                In id (Object_keys (_recommendations s'))) /\
    (forall l, importantRecommendationsIgnoreList s = Some l ->
       exists l', importantRecommendationsIgnoreList s' = Some (l ++ l')) /\
    (importantRecommendationsIgnoreList s = None ->
     importantRecommendationsIgnoreList s' = None)).
  { intros s s' H1 H2 H3 H4. rewrite H1, H2, H3, H4.
    split; [|split; [|split; [|split]]]; auto.
    intros l Hl. exists []. now rewrite app_nil_r. }
  event_cases h w e; cbn [resume]; try (apply Hsame; reflexivity).
  - cbn. split; [|split; [|split; [|split]]]; auto.
    + intros id Hid. apply in_fold_recommend_matching. now left.
    + intros l Hl. exists []. now rewrite app_nil_r.
  - destruct (suggest_installed_frame h u local
                (set_installedQueries (delete q (installedQueries w)) w))
      as (H & _).
    rewrite H. apply Hsame; reflexivity.
  - destruct (workspace_installed_frame allRecommendations local
                (set_installedQueries (delete q (installedQueries w)) w))
      as (H & _).
    rewrite H. apply Hsame; reflexivity.
  - unfold neverAgainAction.
    destruct (importantRecommendationsIgnoreList (service w)) as [l|] eqn:Hl;
      cbn; (split; [|split; [|split; [|split]]]); auto; try discriminate.
    intros l0 [= <-]. eauto.
Qed.

(** ** The constructor and the two kinds of engine *)

Lemma suggestWorkspaceRecommendations_frame (h : Host) (w : World) :
  let w' := _suggestWorkspaceRecommendations h w in
  service w' = service w /\ storage w' = storage w /\
  immediates w' = immediates w /\ messages w' = messages w /\
  (installedQueries w' = installedQueries w \/
   storage_getBoolean (storage w) workspaceRecommendationsIgnoreKey WORKSPACE false = false /\
   installedQueries w' =
     installedQueries w ++ [WorkspaceInstalled (getWorkspaceRecommendations h)]).
Proof.
  unfold _suggestWorkspaceRecommendations.
  destruct (storage_getBoolean _ _ _ _); [repeat split; auto|].
  destruct (length (getWorkspaceRecommendations h) =? 0)%nat;
    repeat split; auto.
Qed.

Lemma dormant_start (st : Storage) : dormant (start st).
Proof. repeat split; simpl; auto. Qed.

Lemma dormant_suggestWorkspaceRecommendations (h : Host) (w : World) :
  dormant w -> dormant (_suggestWorkspaceRecommendations h w).
Proof.
  intros (H1 & H2 & H3 & H4).
  destruct (suggestWorkspaceRecommendations_frame h w) as (F1 & F2 & F3 & F4 & F5).
  unfold dormant. rewrite F1, F3, F4. repeat split; auto.
  intros uri Hin. destruct F5 as [F5|[_ F5]]; rewrite F5 in Hin.
  - exact (H3 uri Hin).
  - apply in_app_or in Hin. destruct Hin as [Hin|[Hin|[]]]; [exact (H3 uri Hin) | discriminate].
Qed.

Lemma new_dormant_or_hydrated (h : Host) (st : Storage) (w0 : World) :
  ExtensionTipsService_new h st = Returned w0 ->
  dormant w0 /\ (galleryService_isEnabled h = false \/ product_extensionTips h = None)
  \/ hydrated h w0 /\ galleryService_isEnabled h = true.
Proof.
  unfold ExtensionTipsService_new.
  destruct (galleryService_isEnabled h); cbn [negb].
  2: { intros [= <-]. left. split; [apply dormant_start | now left]. }
  unfold _suggestTips.
  destruct (product_extensionTips h) as [tips|] eqn:Htips.
  2: { intros [= <-]. left. split; [|now right].
       apply dormant_suggestWorkspaceRecommendations, dormant_start. }
  destruct (JSON.parse _) as [ignoreValue|]; [|discriminate].
  destruct (JSON.parse _) as [storedValue|]; [|discriminate].
  destruct (as_string_array ignoreValue) as [ignoreList|]; [|discriminate].
  destruct (as_string_array storedValue) as [storedRecommendations|]; [|discriminate].
  intros [= <-]. right. split; [|reflexivity].
  destruct (suggestWorkspaceRecommendations_frame h
    (fold_left (fun w' uri => _suggest uri w') (modelService_getModels h)
       (set_service (fun s =>
          {| _recommendations := recommend_all storedRecommendations (_recommendations s);
             _availableRecommendations := group_tips tips;
             importantRecommendations :=
               Some match product_extensionImportantTips h with
                    | Some t => t | None => [] end;
             importantRecommendationsIgnoreList := Some ignoreList;
             _disposables := _disposables s ++ [ModelAddedListener] |}) (start st))))
    as (F1 & _).
  unfold hydrated. rewrite F1.
  match goal with |- context [fold_left ?f ?l ?w] =>
    destruct (fold_suggest_models l w) as (G1 & _) end.
  rewrite G1. cbn. eauto 10.
Qed.

Lemma handle_hydrated (h : Host) (w : World) (e : Event) :
  hydrated h w -> hydrated h (handle h w e).
Proof.
  intros (tips & important & ignoreList & H1 & H2 & H3 & H4).
  destruct (handle_service h w e) as (S1 & S2 & _ & S4 & _).
  destruct (S4 _ H4) as [l' Hl'].
  exists tips, important, (ignoreList ++ l').
  rewrite S1, S2. auto.
Qed.

Lemma run_hydrated (h : Host) (evs : list Event) (w : World) :
  hydrated h w -> hydrated h (run h evs w).
Proof.
  unfold run. revert w. induction evs as [|e evs IH]; intros w Hw; [exact Hw|].
  cbn [fold_left]. apply IH, handle_hydrated, Hw.
Qed.

Lemma lookup_In {A : Type} (l : list A) (i : nat) (x : A) :
  l !! i = Some x -> In x l.
Proof. intros H. apply list_elem_of_In. eapply list_elem_of_lookup_2, H. Qed.

Lemma In_delete {A : Type} (l : list A) (i : nat) (x : A) :
  In x (delete i l) -> In x l.
Proof. rewrite <- !list_elem_of_In. apply list_elem_of_delete_inv. Qed.

Lemma handle_dormant (h : Host) (w : World) (e : Event) :
  dormant w -> dormant (handle h w e).
Proof.
  intros (H1 & H2 & H3 & H4).
  event_cases h w e; cbn [resume]; try (repeat split; assumption).
  - rewrite H1, H2. cbn. repeat split; auto.
  - congruence.
  - exfalso. exact (H3 u (lookup_In _ _ _ Hq)).
  - destruct (workspace_installed_frame allRecommendations local
                (set_installedQueries (delete q (installedQueries w)) w))
      as (F1 & _ & F3 & F4 & F5).
    unfold dormant. rewrite F1, F3, F4, F5. cbn.
    repeat split; auto.
    + intros uri Hin. exact (H3 uri (In_delete _ _ _ Hin)).
    + intros id Hin. apply in_app_or in Hin. destruct Hin as [Hin|Hin];
        [exact (H4 id Hin)|].
      destruct (length _ =? 0)%nat; [destruct Hin | destruct Hin as [|[]]; discriminate].
  - repeat split; cbn; auto.
    intros uri Hin. exact (H3 uri (In_delete _ _ _ Hin)).
  - exfalso. exact (H4 id' (lookup_In _ _ _ Hm)).
  - unfold dispose. repeat split; cbn; auto. rewrite H1. reflexivity.
Qed.

Lemma run_dormant (h : Host) (evs : list Event) (w : World) :
  dormant w -> dormant (run h evs w).
Proof.
  unfold run. revert w. induction evs as [|e evs IH]; intros w Hw; [exact Hw|].
  cbn [fold_left]. apply IH, handle_dormant, Hw.
Qed.

(** The recommendation set only grows along a run. *)
Lemma run_recommendations_grow (h : Host) (evs : list Event) (w : World) (id : string) :
  In id (getRecommendations w) -> In id (getRecommendations (run h evs w)).
Proof.
  unfold run, getRecommendations. revert w.
  induction evs as [|e evs IH]; intros w Hw; [exact Hw|].
  cbn [fold_left]. apply IH.
  destruct (handle_service h w e) as (_ & _ & S3 & _). apply S3, Hw.
Qed.

Lemma run_index (h : Host) (evs : list Event) (w : World) :
  _availableRecommendations (service (run h evs w))
  = _availableRecommendations (service w).
Proof.
  unfold run. revert w. induction evs as [|e evs IH]; intros w; [reflexivity|].
  cbn [fold_left]. rewrite IH.
  destruct (handle_service h w e) as (S1 & _). exact S1.
Qed.

(** ** The recommendation set *)

(** An announced document is queued once for each listener, behind what
    is queued already. *)
Lemma observed_is_queued (h : Host) (w : World) (uri : URI) :
  immediates (handle h w (ModelAdded (Some uri)))
  = immediates w ++ map (fun _ => uri) (_disposables (service w)).
Proof. cbn [handle]. rewrite fold_suggest_some. reflexivity. Qed.

Lemma suggest_immediate_recommendations (h : Host) (uri : URI) (w : World) :
  getRecommendations (_suggest_immediate h uri w)
  = Object_keys (fold_left (recommend_matching h (fsPath uri))
                   (_availableRecommendations (service w))
                   (_recommendations (service w))).
Proof. reflexivity. Qed.

Lemma suggest_immediate_index (h : Host) (uri : URI) (w : World) :
  _availableRecommendations (service (_suggest_immediate h uri w))
  = _availableRecommendations (service w).
Proof. reflexivity. Qed.

Lemma suggest_immediate_idempotent (h : Host) (uri : URI) (w : World) :
  getRecommendations (_suggest_immediate h uri (_suggest_immediate h uri w))
  = getRecommendations (_suggest_immediate h uri w).
Proof.
  rewrite (suggest_immediate_recommendations h uri (_suggest_immediate h uri w)).
  rewrite suggest_immediate_index.
  apply keys_fold_recommend_matching_in.
  intros pattern ids id Hin Hm Hid.
  apply in_fold_recommend_matching. right. eauto.
Qed.

(** Scenario A of the spec: with the tip map [{foo.bar: **/*.md}] (and
    more), observing [README.md] recommends [foo.bar]. *)
Example scenario_A :
  getRecommendations
    (run sample_host [ModelAdded (Some readme); Immediate] sample_world)
  = ["foo.bar"; "foo.baz"].
Proof. vm_compute. reflexivity. Qed.

(** C1: when [_suggestTips] has built the pattern index from the tip map
    and the deferred unit of an observed document [uri] is the next to
    run, then for every entry [(pattern, ids)] of the index whose
    pattern the glob matcher matches against the path of [uri], every
    id of [ids] is in [getRecommendations()] once the unit has run, and
    stays there whatever happens next. *)
Theorem C1_matched_ids_are_recommended
    (h : Host) (st : Storage) (w0 : World) (tips : dict string)
    (evs evs' : list Event) (uri : URI) (rest : list URI)
    (pattern : string) (ids : list string) (id : string) :
  ExtensionTipsService_new h st = Returned w0 ->
  product_extensionTips h = Some tips ->
  immediates (run h evs w0) = uri :: rest ->
  In (pattern, ids) (group_tips tips) ->
  glob_match h pattern (fsPath uri) = true ->
  In id ids ->
  In id (getRecommendations (run h (evs ++ Immediate :: evs') w0)).
Proof.
  intros Hnew Htips Hq Hentry Hmatch Hid.
  destruct (new_dormant_or_hydrated h st w0 Hnew) as [[Hd _]|[Hh _]].
  - apply (run_dormant h evs) in Hd. destruct Hd as (_ & Hd & _). congruence.
  - apply (run_hydrated h evs) in Hh.
    destruct Hh as (tips' & important & ignoreList & H1 & H2 & _).
    assert (tips' = tips) by congruence. subst tips'.
    rewrite run_app. change (run h (Immediate :: evs') (run h evs w0))
      with (run h evs' (handle h (run h evs w0) Immediate)).
    apply run_recommendations_grow. cbn [handle]. rewrite Hq.
    rewrite suggest_immediate_recommendations.
    apply in_fold_recommend_matching. right.
    exists pattern, ids. cbn. rewrite H2. auto.
Qed.

Lemma C1_witness :
  In "foo.baz"
    (getRecommendations
       (run sample_host ([ModelAdded (Some readme)] ++ Immediate :: []) sample_world)).
Proof.
  apply (C1_matched_ids_are_recommended sample_host ∅ sample_world
           [("foo.bar", "**/*.md"); ("foo.baz", "**/*.md"); ("ms.ts", "**/*.ts")]
           [ModelAdded (Some readme)] [] readme [] "**/*.md"
           ["foo.bar"; "foo.baz"] "foo.baz").
  - vm_compute. reflexivity.
  - reflexivity.
  - vm_compute. reflexivity.
  - vm_compute. left. reflexivity.
  - vm_compute. reflexivity.
  - right. left. reflexivity.
Defined.

(** C8: running the deferred unit of a document a second time leaves
    [getRecommendations()] as the first run left it, and so does
    observing the document twice instead of once: an id that is in the
    set already is not added again. *)
Theorem C8_observing_twice_is_observing_once (h : Host) (w : World) (uri : URI) :
  getRecommendations (_suggest_immediate h uri (_suggest_immediate h uri w))
  = getRecommendations (_suggest_immediate h uri w)
  /\ (immediates w = [] ->
      getRecommendations
        (run h [ModelAdded (Some uri); Immediate; ModelAdded (Some uri); Immediate] w)
      = getRecommendations (run h [ModelAdded (Some uri); Immediate] w)).
Proof.
  split; [apply suggest_immediate_idempotent|].
  intros Hq. unfold run. cbn [fold_left].
  assert (H1 : forall w', handle h w' (ModelAdded (Some uri))
               = set_immediates (immediates w' ++ map (fun _ => uri)
                                   (_disposables (service w'))) w').
  { intros w'. cbn [handle]. apply fold_suggest_some. }
  rewrite !H1, Hq. cbn [app].
  destruct (_disposables (service w)) as [|d ds] eqn:Hds; cbn [map];
    cbn [handle set_immediates immediates service].
  - rewrite Hds. reflexivity.
  - set (w2 := set_immediates (map (fun _ => uri) ds)
                 (set_immediates (uri :: map (fun _ => uri) ds) w)).
    set (w1 := _suggest_immediate h uri w2).
    change (immediates w1) with (map (fun _ : IDisposable => uri) ds).
    change (_disposables (service w1)) with (_disposables (service w)).
    rewrite Hds.
    assert (Hhead : exists rest',
               map (fun _ : IDisposable => uri) ds
               ++ map (fun _ : IDisposable => uri) (d :: ds) = uri :: rest').
    { destruct ds; cbn; eauto. }
    destruct Hhead as [rest' ->].
    exact (suggest_immediate_idempotent h uri w2).
Qed.

Lemma C8_witness :
  getRecommendations
    (run sample_host
       [ModelAdded (Some readme); Immediate; ModelAdded (Some readme); Immediate]
       sample_world)
  = getRecommendations
      (run sample_host [ModelAdded (Some readme); Immediate] sample_world).
Proof.
  apply (proj2 (C8_observing_twice_is_observing_once sample_host sample_world readme)).
  vm_compute. reflexivity.
Defined.

Lemma as_strings_map_Str (l : list string) : as_strings (map JSON.Str l) = Some l.
Proof. induction l as [|x l IH]; cbn; [reflexivity | now rewrite IH]. Qed.

(** A list written by [JSON.stringify] is read back as it was. *)
Lemma stored_strings_stringify (st : Storage) (key : string) (l : list string) :
  st !! (GLOBAL, key) = Some (Text (JSON.stringify l)) ->
  stored_strings st key = Some l.
Proof.
  intros H. unfold stored_strings, storage_get. rewrite H.
  rewrite JSONFacts.parse_stringify. apply as_strings_map_Str.
Qed.

Lemma stored_strings_absent (st : Storage) (key : string) :
  st !! (GLOBAL, key) = None -> stored_strings st key = Some [].
Proof. intros H. unfold stored_strings, storage_get. rewrite H. reflexivity. Qed.

(** What the constructor does when the gallery is enabled and a tip map
    is there. *)
Lemma new_hydrates (h : Host) (st : Storage) (tips : dict string) :
  galleryService_isEnabled h = true ->
  product_extensionTips h = Some tips ->
  (JSON.parse (storage_get st importantRecommendationsIgnoreKey GLOBAL "[]") = None \/
   JSON.parse (storage_get st recommendationsKey GLOBAL "[]") = None ->
   ExtensionTipsService_new h st = SyntaxError) /\
  (forall ignoreList storedRecommendations,
     stored_strings st importantRecommendationsIgnoreKey = Some ignoreList ->
     stored_strings st recommendationsKey = Some storedRecommendations ->
     exists w0,
       ExtensionTipsService_new h st = Returned w0 /\
       importantRecommendationsIgnoreList (service w0) = Some ignoreList /\
       _recommendations (service w0) = recommend_all storedRecommendations [] /\
       storage w0 = st /\ messages w0 = []) /\
  (forall w0,
     ExtensionTipsService_new h st = Returned w0 ->
     exists ignoreList storedRecommendations,
       stored_strings st importantRecommendationsIgnoreKey = Some ignoreList /\
       stored_strings st recommendationsKey = Some storedRecommendations /\
       importantRecommendationsIgnoreList (service w0) = Some ignoreList /\
       _recommendations (service w0) = recommend_all storedRecommendations [] /\
       storage w0 = st /\ messages w0 = []).
Proof.
  intros Hen Htips.
  unfold ExtensionTipsService_new, _suggestTips, stored_strings.
  rewrite Hen, Htips. cbn [negb start storage].
  destruct (JSON.parse (storage_get st importantRecommendationsIgnoreKey GLOBAL "[]"))
    as [ignoreValue|];
    [|split; [reflexivity | split; [discriminate | discriminate]]].
  destruct (JSON.parse (storage_get st recommendationsKey GLOBAL "[]"))
    as [storedValue|];
    [|split; [reflexivity | split; [discriminate | discriminate]]].
  split; [intros [H|H]; discriminate|].
  destruct (as_string_array ignoreValue) as [ignoreList|];
    [|split; [discriminate | discriminate]].
  destruct (as_string_array storedValue) as [storedRecommendations|];
    [|split; [discriminate | discriminate]].
  match goal with |- context [_suggestWorkspaceRecommendations h ?w] =>
    destruct (suggestWorkspaceRecommendations_frame h w) as (F1 & F2 & _ & F4 & _);
    set (w1 := w) in *
  end.
  match goal with w1 := fold_left ?f ?l ?w |- _ =>
    destruct (fold_suggest_models l w) as (G1 & G2 & _ & G4)
  end.
  fold w1 in G1, G2, G4.
  assert (Hall : importantRecommendationsIgnoreList
                   (service (_suggestWorkspaceRecommendations h w1)) = Some ignoreList /\
                 _recommendations (service (_suggestWorkspaceRecommendations h w1))
                 = recommend_all storedRecommendations [] /\
                 storage (_suggestWorkspaceRecommendations h w1) = st /\
                 messages (_suggestWorkspaceRecommendations h w1) = []).
  { rewrite F1, F2, F4, G1, G2, G4. repeat split. }
  split.
  - intros i s [= <-] [= <-]. eexists. split; [reflexivity | exact Hall].
  - intros w0 [= <-]. exists ignoreList, storedRecommendations. tauto.
Qed.

(** ** Persisted state that cannot be read *)

(** C2: with the gallery enabled and a tip map there, a list-valued
    entry that is absent gives an empty collection (the ignore list
    for its key, the recommendation set for its key), and the
    constructor returns when both are absent; an entry that holds
    unparseable JSON makes [JSON.parse] raise its [SyntaxError], which
    the constructor does not catch. *)
Theorem C2_absent_is_empty_unparseable_raises
    (h : Host) (st : Storage) (tips : dict string) :
  galleryService_isEnabled h = true ->
  product_extensionTips h = Some tips ->
  (JSON.parse (storage_get st importantRecommendationsIgnoreKey GLOBAL "[]") = None \/
   JSON.parse (storage_get st recommendationsKey GLOBAL "[]") = None ->
   ExtensionTipsService_new h st = SyntaxError) /\
  (forall w0,
     ExtensionTipsService_new h st = Returned w0 ->
     (st !! (GLOBAL, importantRecommendationsIgnoreKey) = None ->
      importantRecommendationsIgnoreList (service w0) = Some []) /\
     (st !! (GLOBAL, recommendationsKey) = None ->
      getRecommendations w0 = [])) /\
  (st !! (GLOBAL, importantRecommendationsIgnoreKey) = None ->
   st !! (GLOBAL, recommendationsKey) = None ->
   exists w0, ExtensionTipsService_new h st = Returned w0).
Proof.
  intros Hen Htips.
  destruct (new_hydrates h st tips Hen Htips) as (H1 & H2 & H3).
  split; [exact H1|]. split.
  - intros w0 Hnew.
    destruct (H3 w0 Hnew) as (ign & recs & S1 & S2 & S3 & S4 & _).
    split; intros Habs.
    + rewrite (stored_strings_absent _ _ Habs) in S1. congruence.
    + rewrite (stored_strings_absent _ _ Habs) in S2.
      injection S2 as <-. unfold getRecommendations. rewrite S4. reflexivity.
  - intros A1 A2.
    destruct (H2 [] [] (stored_strings_absent _ _ A1) (stored_strings_absent _ _ A2))
      as (w0 & Hw0 & _).
    eauto.
Qed.

Lemma C2_witness :
  (JSON.parse (storage_get broken_storage importantRecommendationsIgnoreKey GLOBAL "[]") = None \/
   JSON.parse (storage_get broken_storage recommendationsKey GLOBAL "[]") = None ->
   ExtensionTipsService_new sample_host broken_storage = SyntaxError) /\
  (forall w0,
     ExtensionTipsService_new sample_host broken_storage = Returned w0 ->
     (broken_storage !! (GLOBAL, importantRecommendationsIgnoreKey) = None ->
      importantRecommendationsIgnoreList (service w0) = Some []) /\
     (broken_storage !! (GLOBAL, recommendationsKey) = None ->
      getRecommendations w0 = [])) /\
  (broken_storage !! (GLOBAL, importantRecommendationsIgnoreKey) = None ->
   broken_storage !! (GLOBAL, recommendationsKey) = None ->
   exists w0, ExtensionTipsService_new sample_host broken_storage = Returned w0).
Proof.
  apply (C2_absent_is_empty_unparseable_raises sample_host broken_storage
           [("foo.bar", "**/*.md"); ("foo.baz", "**/*.md"); ("ms.ts", "**/*.ts")]).
  - reflexivity.
  - reflexivity.
Defined.

(** The claim fails where the recommendations key holds [{]: the text
    is no JSON and the constructor ends in the [SyntaxError] instead of
    starting with an empty recommendation set. *)
Lemma C2_counterexample :
  JSON.parse (storage_get broken_storage recommendationsKey GLOBAL "[]") = None /\
  ExtensionTipsService_new sample_host broken_storage = SyntaxError /\
  ~ (exists w0, ExtensionTipsService_new sample_host broken_storage = Returned w0 /\
                getRecommendations w0 = []).
Proof.
  split; [vm_compute; reflexivity|].
  split; [vm_compute; reflexivity|].
  intros (w0 & H & _). vm_compute in H. discriminate.
Qed.

(** ** Engines that stay idle *)

Lemma handle_start (h : Host) (st : Storage) (e : Event) :
  handle h (start st) e = start st.
Proof. destruct e as [[u|]| |q local|q|m [| |]|]; reflexivity. Qed.

Lemma run_start (h : Host) (st : Storage) (evs : list Event) :
  run h evs (start st) = start st.
Proof.
  unfold run. induction evs as [|e evs IH]; [reflexivity|].
  cbn [fold_left]. now rewrite handle_start.
Qed.

(** C10: when the gallery service reports itself disabled, the
    constructor returns at once and the engine stays as its field
    initialisers left it through every run: no field is hydrated, the
    pattern index is empty, no listener is registered, the storage is
    as it was, nothing is queued, no installed-extensions query is
    pending, no message is shown, and [getRecommendations()] returns
    the empty list. *)
Theorem C10_disabled_gallery_does_nothing (h : Host) (st : Storage) :
  galleryService_isEnabled h = false ->
  ExtensionTipsService_new h st = Returned (start st) /\
  forall evs,
    let w := run h evs (start st) in
    service w = fields /\
    importantRecommendations (service w) = None /\
    importantRecommendationsIgnoreList (service w) = None /\
    _availableRecommendations (service w) = [] /\
    _disposables (service w) = [] /\
    storage w = st /\
    immediates w = [] /\
    installedQueries w = [] /\
    messages w = [] /\
    getRecommendations w = [].
Proof.
  intros Hoff. split.
  - unfold ExtensionTipsService_new. now rewrite Hoff.
  - intros evs w. subst w. rewrite run_start. repeat split.
Qed.

Lemma C10_witness :
  ExtensionTipsService_new disabled_host broken_storage
  = Returned (start broken_storage) /\
  forall evs,
    let w := run disabled_host evs (start broken_storage) in
    service w = fields /\
    importantRecommendations (service w) = None /\
    importantRecommendationsIgnoreList (service w) = None /\
    _availableRecommendations (service w) = [] /\
    _disposables (service w) = [] /\
    storage w = broken_storage /\
    immediates w = [] /\
    installedQueries w = [] /\
    messages w = [] /\
    getRecommendations w = [].
Proof.
  apply (C10_disabled_gallery_does_nothing disabled_host broken_storage).
  reflexivity.
Defined.

Lemma handle_recommendations_empty_index (h : Host) (w : World) (e : Event) :
  _availableRecommendations (service w) = [] ->
  _recommendations (service (handle h w e)) = _recommendations (service w).
Proof.
  intros Hidx. event_cases h w e; cbn [resume]; try reflexivity.
  - cbn. rewrite Hidx. reflexivity.
  - destruct (suggest_installed_frame h u local
                (set_installedQueries (delete q (installedQueries w)) w)) as (H & _).
    rewrite H. reflexivity.
  - destruct (workspace_installed_frame allRecommendations local
                (set_installedQueries (delete q (installedQueries w)) w)) as (H & _).
    rewrite H. reflexivity.
  - unfold neverAgainAction.
    destruct (importantRecommendationsIgnoreList (service w)); reflexivity.
Qed.

Lemma run_recommendations_empty_index (h : Host) (evs : list Event) (w : World) :
  _availableRecommendations (service w) = [] ->
  _recommendations (service (run h evs w)) = _recommendations (service w).
Proof.
  unfold run. revert w. induction evs as [|e evs IH]; intros w Hidx; [reflexivity|].
  cbn [fold_left]. rewrite IH.
  - apply handle_recommendations_empty_index, Hidx.
  - destruct (handle_service h w e) as (S1 & _). now rewrite S1.
Qed.

(** C7: when the tip map is absent, the constructor returns and the
    engine never goes through [_suggestTips]: its fields stay as the
    initialisers left them (no pattern index, no listener, an empty
    recommendation set), no deferred unit is ever queued, no query of
    [_suggest] is ever pending and no important-recommendation message
    is ever shown; the workspace check still runs and may show its
    message.  When the tip map is there and empty, the pattern index is
    empty and no run adds an id to the recommendation set; important
    recommendations and the workspace check go on as usual. *)
Theorem C7_absent_or_empty_tip_map (h : Host) (st : Storage) :
  (product_extensionTips h = None ->
   exists w0,
     ExtensionTipsService_new h st = Returned w0 /\
     forall evs,
       let w := run h evs w0 in
       service w = fields /\
       immediates w = [] /\
       (forall uri, ~ In (SuggestInstalled uri) (installedQueries w)) /\
       (forall id, ~ In (ReallyRecommended id) (messages w)) /\
       getRecommendations w = []) /\
  (product_extensionTips h = Some [] ->
   forall w0,
     ExtensionTipsService_new h st = Returned w0 ->
     forall evs,
       let w := run h evs w0 in
       _availableRecommendations (service w) = [] /\
       getRecommendations w = getRecommendations w0).
Proof.
  split.
  - intros Hnone.
    assert (Hex : exists w0, ExtensionTipsService_new h st = Returned w0).
    { unfold ExtensionTipsService_new, _suggestTips. rewrite Hnone.
      destruct (galleryService_isEnabled h); cbn [negb]; eauto. }
    destruct Hex as [w0 Hw0]. exists w0. split; [exact Hw0|].
    intros evs w. subst w.
    destruct (new_dormant_or_hydrated h st w0 Hw0) as [[Hd _]|[Hh _]].
    + apply (run_dormant h evs) in Hd.
      destruct Hd as (D1 & D2 & D3 & D4). repeat split; auto.
      unfold getRecommendations. rewrite D1. reflexivity.
    + destruct Hh as (tips & _ & _ & Htips & _). congruence.
  - intros Hempty w0 Hw0 evs w. subst w.
    assert (Hidx : _availableRecommendations (service w0) = []).
    { destruct (new_dormant_or_hydrated h st w0 Hw0) as [[Hd _]|[Hh _]].
      - destruct Hd as (D1 & _). rewrite D1. reflexivity.
      - destruct Hh as (tips & _ & _ & Htips & Hidx & _).
        rewrite Hidx. assert (tips = []) by congruence. subst. reflexivity. }
    split.
    + rewrite run_index. exact Hidx.
    + unfold getRecommendations. now rewrite run_recommendations_empty_index.
Qed.

Lemma C7_witness :
  exists w0,
    ExtensionTipsService_new tipless_host ∅ = Returned w0 /\
    forall evs,
      let w := run tipless_host evs w0 in
      service w = fields /\
      immediates w = [] /\
      (forall uri, ~ In (SuggestInstalled uri) (installedQueries w)) /\
      (forall id, ~ In (ReallyRecommended id) (messages w)) /\
      getRecommendations w = [].
Proof.
  apply (proj1 (C7_absent_or_empty_tip_map tipless_host ∅)).
  reflexivity.
Defined.

(** The claim fails both ways.  Without a tip map the workspace check
    still shows its message; with an empty tip map a document is still
    matched against the important tips and a message is shown for it. *)
Lemma C7_counterexample :
  (exists w0,
     ExtensionTipsService_new tipless_host ∅ = Returned w0 /\
     messages (run tipless_host [Installed 0 []] w0) = [WorkspaceRecommended]) /\
  (exists w0,
     ExtensionTipsService_new empty_tips_host ∅ = Returned w0 /\
     messages (run empty_tips_host [Immediate; Installed 0 []] w0)
     = [ReallyRecommended "ms.ts"]).
Proof.
  split; eexists; (split; [vm_compute; reflexivity|]); vm_compute; reflexivity.
Qed.

(** ** Growth of the recommendation set *)

Lemma handle_recommendations_snapshot (h : Host) (w : World) (e : Event) :
  storage (handle h w e) !! (GLOBAL, recommendationsKey)
  = storage w !! (GLOBAL, recommendationsKey)
  \/ storage (handle h w e) !! (GLOBAL, recommendationsKey)
     = Some (Text (JSON.stringify (getRecommendations (handle h w e)))).
Proof.
  event_cases h w e; cbn [resume]; try (left; reflexivity).
  - right. cbn. unfold storage_store. now rewrite lookup_insert_eq.
  - left.
    destruct (suggest_installed_frame h u local
                (set_installedQueries (delete q (installedQueries w)) w))
      as (_ & H & _).
    rewrite H. reflexivity.
  - left.
    destruct (workspace_installed_frame allRecommendations local
                (set_installedQueries (delete q (installedQueries w)) w))
      as (_ & H & _).
    rewrite H. reflexivity.
  - left. unfold neverAgainAction.
    destruct (importantRecommendationsIgnoreList (service w)); [|reflexivity].
    cbn. unfold storage_store. now rewrite lookup_insert_ne.
  - left. cbn. unfold storage_store. now rewrite lookup_insert_ne.
Qed.

Lemma run_recommendations_snapshot (h : Host) (evs : list Event) (w : World) :
  storage (run h evs w) !! (GLOBAL, recommendationsKey)
  = storage w !! (GLOBAL, recommendationsKey)
  \/ exists snapshot,
       storage (run h evs w) !! (GLOBAL, recommendationsKey)
       = Some (Text (JSON.stringify snapshot)) /\
       forall id, In id (getRecommendations w) -> In id snapshot.
Proof.
  induction evs as [|e evs IH] using rev_ind; [left; reflexivity|].
  rewrite run_app. change (run h [e] (run h evs w)) with (handle h (run h evs w) e).
  destruct (handle_recommendations_snapshot h (run h evs w) e) as [Hs|Hs].
  - rewrite Hs. exact IH.
  - right. eexists. split; [exact Hs|].
    intros id Hid.
    change (handle h (run h evs w) e) with (run h [e] (run h evs w)).
    rewrite <- run_app. apply run_recommendations_grow, Hid.
Qed.

(** C9: along every run of an engine the constructor returned, an id
    that is in the recommendation set stays in it; the set the
    constructor starts with holds what the stored list held; and the
    recommendations entry of the storage is either still the one the
    constructor found or a list written by [JSON.stringify] that reads
    back as written and holds every id the engine started with. *)
Theorem C9_recommendation_set_only_grows (h : Host) (st : Storage) (w0 : World) :
  ExtensionTipsService_new h st = Returned w0 ->
  (forall loaded,
     galleryService_isEnabled h = true ->
     product_extensionTips h <> None ->
     stored_strings st recommendationsKey = Some loaded ->
     forall id, In id loaded <-> In id (getRecommendations w0)) /\
  forall evs,
    (forall evs' id,
       In id (getRecommendations (run h evs w0)) ->
       In id (getRecommendations (run h (evs ++ evs') w0))) /\
    (storage (run h evs w0) !! (GLOBAL, recommendationsKey)
     = st !! (GLOBAL, recommendationsKey)
     \/ exists snapshot,
          storage (run h evs w0) !! (GLOBAL, recommendationsKey)
          = Some (Text (JSON.stringify snapshot)) /\
          stored_strings (storage (run h evs w0)) recommendationsKey = Some snapshot /\
          forall id, In id (getRecommendations w0) -> In id snapshot).
Proof.
  intros Hnew. split.
  - intros loaded Hen Htips Hloaded id.
    destruct (product_extensionTips h) as [tips|] eqn:Ht; [|congruence].
    destruct (new_hydrates h st tips Hen Ht) as (_ & _ & H3).
    destruct (H3 w0 Hnew) as (ign & recs & _ & S2 & _ & S4 & _).
    assert (recs = loaded) by congruence. subst recs.
    unfold getRecommendations. rewrite S4, in_recommend_all. cbn. tauto.
  - intros evs. split.
    + intros evs' id Hid. rewrite run_app. apply run_recommendations_grow, Hid.
    + assert (Hst : storage w0 = st).
      { revert Hnew. unfold ExtensionTipsService_new.
        destruct (galleryService_isEnabled h) eqn:Hen; cbn [negb];
          [|now intros [= <-]].
        destruct (product_extensionTips h) as [tips|] eqn:Ht.
        - intros Hnew. destruct (new_hydrates h st tips Hen Ht) as (_ & _ & H3).
          assert (Hnew' : ExtensionTipsService_new h st = Returned w0).
          { unfold ExtensionTipsService_new. rewrite Hen. exact Hnew. }
          destruct (H3 w0 Hnew') as (_ & _ & _ & _ & _ & _ & S5 & _). exact S5.
        - unfold _suggestTips. rewrite Ht. intros [= <-].
          destruct (suggestWorkspaceRecommendations_frame h (start st)) as (_ & F & _).
          exact F. }
      destruct (run_recommendations_snapshot h evs w0) as [Hs|(snap & Hs & Hin)].
      * left. now rewrite Hs, Hst.
      * right. exists snap. repeat split; auto.
        apply stored_strings_stringify, Hs.
Qed.

Lemma C9_witness :
  In "old.one"
    (getRecommendations
       (run sample_host ([ModelAdded (Some readme)] ++ [Immediate]) earlier_world)).
Proof.
  assert (Hnew : ExtensionTipsService_new sample_host earlier_storage
                 = Returned earlier_world) by (vm_compute; reflexivity).
  assert (Hin : In "old.one"
                  (getRecommendations
                     (run sample_host [ModelAdded (Some readme)] earlier_world)))
    by (vm_compute; left; reflexivity).
  exact (proj1 (proj2 (C9_recommendation_set_only_grows
                         sample_host earlier_storage earlier_world Hnew)
                  [ModelAdded (Some readme)]) [Immediate] "old.one" Hin).
Defined.

(** ** A query that is rejected *)

Lemma emitted_run_unresolved (h : Host) (evs : list Event) (w : World) :
  (forall q local, ~ In (Installed q local) evs) ->
  emitted_run h evs w = [].
Proof.
  revert w. induction evs as [|e evs IH]; intros w Hno; [reflexivity|].
  cbn [emitted_run]. rewrite IH.
  - destruct e; try reflexivity. exfalso. eapply Hno. left. reflexivity.
  - intros q local Hin. eapply Hno. right. exact Hin.
Qed.

(** C3: [done] is given a callback for the resolved query only.  A
    rejected query is dropped without running it: the fields, the
    storage, the queue and the messages stay as they were; and a run in
    which no installed-extensions query resolves shows no message at
    all, whatever is matched or configured. *)
Theorem C3_rejected_query_shows_nothing (h : Host) (w : World) :
  (forall q,
     let w' := handle h w (InstalledRejected q) in
     messages w' = messages w /\ service w' = service w /\
     storage w' = storage w /\ immediates w' = immediates w /\
     installedQueries w' = delete q (installedQueries w)) /\
  (forall evs,
     (forall q local, ~ In (Installed q local) evs) ->
     messages (run h evs w) = messages w).
Proof.
  split.
  - intros q. repeat split.
  - intros evs Hno. rewrite run_messages, emitted_run_unresolved by exact Hno.
    apply app_nil_r.
Qed.

Lemma C3_witness :
  messages
    (run sample_host
       [ModelAdded (Some a_ts); Immediate; InstalledRejected 1; InstalledRejected 0]
       sample_world)
  = messages sample_world.
Proof.
  apply (proj2 (C3_rejected_query_shows_nothing sample_host sample_world)).
  intros q local Hin. cbn in Hin.
  destruct Hin as [H|[H|[H|[H|[]]]]]; discriminate.
Defined.

(** The claim fails at both gates: the rejected query shows nothing,
    where the query resolved with no extension shows the message. *)
Lemma C3_counterexample :
  (messages (run sample_host [InstalledRejected 0] sample_world) = [] /\
   messages (run sample_host [Installed 0 []] sample_world) = [WorkspaceRecommended]) /\
  (messages (run sample_host
               [InstalledRejected 0; ModelAdded (Some a_ts); Immediate;
                InstalledRejected 0] sample_world) = [] /\
   messages (run sample_host
               [InstalledRejected 0; ModelAdded (Some a_ts); Immediate;
                Installed 0 []] sample_world) = [ReallyRecommended "ms.ts"]).
Proof. repeat split; vm_compute; reflexivity. Qed.

(** ** The workspace check *)

Lemma filter_delete_le {A : Type} (f : A -> bool) (l : list A) (q : nat) :
  length (List.filter f (delete q l)) <= length (List.filter f l).
Proof.
  revert q. induction l as [|x l IH]; intros q; [destruct q; simpl; lia|].
  destruct q as [|q]; simpl.
  - destruct (f x); simpl; lia.
  - specialize (IH q). destruct (f x); simpl; lia.
Qed.

Lemma filter_delete_lookup {A : Type} (f : A -> bool) (l : list A) (q : nat) (x : A) :
  l !! q = Some x -> f x = true ->
  S (length (List.filter f (delete q l))) = length (List.filter f l).
Proof.
  revert q. induction l as [|y l IH]; intros q Hq Hf; [destruct q; discriminate|].
  destruct q as [|q]; simpl in *.
  - injection Hq as ->. rewrite Hf. reflexivity.
  - specialize (IH q Hq Hf). destruct (f y); simpl; lia.
Qed.

Lemma filter_workspace_important (ids : list string) :
  List.filter is_workspace_message (map ReallyRecommended ids) = [].
Proof. induction ids as [|id ids IH]; [reflexivity | exact IH]. Qed.

Lemma handle_workspace_count (h : Host) (w : World) (e : Event) :
  workspace_messages (handle h w e) + workspace_queries (handle h w e)
  <= workspace_messages w + workspace_queries w.
Proof.
  unfold workspace_messages, workspace_queries.
  event_cases h w e; cbn [resume]; try (cbn; lia).
  - cbn. rewrite List.filter_app, length_app. cbn. lia.
  - destruct (suggest_installed_frame h u local
                (set_installedQueries (delete q (installedQueries w)) w))
      as (_ & _ & _ & F4 & F5).
    rewrite F4, F5, List.filter_app, filter_workspace_important, app_nil_r. cbn.
    pose proof (filter_delete_le is_workspace_query (installedQueries w) q). lia.
  - destruct (workspace_installed_frame allRecommendations local
                (set_installedQueries (delete q (installedQueries w)) w))
      as (_ & _ & _ & F4 & F5).
    rewrite F4, F5, List.filter_app, length_app. cbn [installedQueries set_installedQueries messages].
    pose proof (filter_delete_lookup is_workspace_query (installedQueries w) q _ Hq eq_refl).
    destruct (length _ =? 0)%nat; cbn; lia.
  - cbn. pose proof (filter_delete_le is_workspace_query (installedQueries w) q). lia.
  - unfold neverAgainAction.
    destruct (importantRecommendationsIgnoreList (service w)); cbn; lia.
Qed.

Lemma run_workspace_count (h : Host) (evs : list Event) (w : World) :
  workspace_messages (run h evs w) + workspace_queries (run h evs w)
  <= workspace_messages w + workspace_queries w.
Proof.
  unfold run. revert w. induction evs as [|e evs IH]; intros w; [cbn; lia|].
  cbn [fold_left]. specialize (IH (handle h w e)).
  pose proof (handle_workspace_count h w e). lia.
Qed.

Lemma new_workspace_count (h : Host) (st : Storage) (w0 : World) :
  ExtensionTipsService_new h st = Returned w0 ->
  messages w0 = [] /\
  (installedQueries w0 = [] \/
   storage_getBoolean st workspaceRecommendationsIgnoreKey WORKSPACE false = false /\
   installedQueries w0 = [WorkspaceInstalled (getWorkspaceRecommendations h)]).
Proof.
  assert (Hws : forall w, storage w = st -> installedQueries w = [] -> messages w = [] ->
            messages (_suggestWorkspaceRecommendations h w) = [] /\
            (installedQueries (_suggestWorkspaceRecommendations h w) = [] \/
             storage_getBoolean st workspaceRecommendationsIgnoreKey WORKSPACE false = false /\
             installedQueries (_suggestWorkspaceRecommendations h w)
             = [WorkspaceInstalled (getWorkspaceRecommendations h)])).
  { intros w Hst Hq Hm.
    destruct (suggestWorkspaceRecommendations_frame h w) as (_ & _ & _ & F4 & F5).
    rewrite F4, Hm, Hst, Hq in *. split; [reflexivity|].
    destruct F5 as [F5|[F5 F6]]; [left | right]; auto. }
  unfold ExtensionTipsService_new.
  destruct (galleryService_isEnabled h); cbn [negb];
    [|intros [= <-]; split; [reflexivity | left; reflexivity]].
  unfold _suggestTips.
  destruct (product_extensionTips h) as [tips|];
    [|intros [= <-]; apply Hws; reflexivity].
  destruct (JSON.parse _) as [ignoreValue|]; [|discriminate].
  destruct (JSON.parse _) as [storedValue|]; [|discriminate].
  destruct (as_string_array ignoreValue) as [ignoreList|]; [|discriminate].
  destruct (as_string_array storedValue) as [storedRecommendations|]; [|discriminate].
  intros [= <-].
  match goal with |- context [_suggestWorkspaceRecommendations h (fold_left ?f ?l ?w)] =>
    destruct (fold_suggest_models l w) as (_ & G2 & G3 & G4)
  end.
  apply Hws; [rewrite G2 | rewrite G3 | rewrite G4]; reflexivity.
Qed.

(** C5: the constructor is the only caller of the workspace check and
    calls it once, so an engine shows at most one workspace message in
    any run; when the dismissal flag of the workspace reads true in the
    storage the engine starts from, it shows none; and the "Don't show
    again" action of the workspace message leaves the flag reading
    true. *)
Theorem C5_workspace_check_once_per_engine (h : Host) (st : Storage) (w0 : World) :
  ExtensionTipsService_new h st = Returned w0 ->
  forall evs,
    workspace_messages (run h evs w0) <= 1 /\
    (storage_getBoolean st workspaceRecommendationsIgnoreKey WORKSPACE false = true ->
     workspace_messages (run h evs w0) = 0) /\
    (forall m,
       messages (run h evs w0) !! m = Some WorkspaceRecommended ->
       storage_getBoolean
         (storage (handle h (run h evs w0) (RunAction m NeverShowAgain)))
         workspaceRecommendationsIgnoreKey WORKSPACE false = true).
Proof.
  intros Hnew evs.
  destruct (new_workspace_count h st w0 Hnew) as (Hm & Hq).
  pose proof (run_workspace_count h evs w0) as Hle.
  assert (H0 : workspace_messages w0 = 0)
    by (unfold workspace_messages; now rewrite Hm).
  split; [|split].
  - destruct Hq as [Hq|[_ Hq]]; unfold workspace_queries in Hle at 2;
      rewrite Hq in Hle; cbn in Hle; lia.
  - intros Hflag. destruct Hq as [Hq|[Hq _]]; [|congruence].
    unfold workspace_queries in Hle at 2. rewrite Hq in Hle. cbn in Hle. lia.
  - intros m Hmsg. cbn [handle]. rewrite Hmsg. cbn.
    unfold storage_getBoolean, storage_store. now rewrite lookup_insert_eq.
Qed.

Lemma C5_witness :
  workspace_messages (run sample_host [Installed 0 []; Installed 0 []] sample_world) <= 1.
Proof.
  assert (Hnew : ExtensionTipsService_new sample_host ∅ = Returned sample_world)
    by (vm_compute; reflexivity).
  exact (proj1 (C5_workspace_check_once_per_engine sample_host ∅ sample_world
                  Hnew [Installed 0 []; Installed 0 []])).
Defined.

(** The claim fails for the check itself: run a second time in the same
    process, with the flag still false, it asks again, and both
    queries show the message. *)
Lemma C5_counterexample :
  messages
    (run sample_host [Installed 0 []; Installed 0 []]
       (_suggestWorkspaceRecommendations sample_host sample_world))
  = [WorkspaceRecommended; WorkspaceRecommended]
  /\ ~ (workspace_messages
          (run sample_host [Installed 0 []; Installed 0 []]
             (_suggestWorkspaceRecommendations sample_host sample_world)) <= 1).
Proof.
  split; [vm_compute; reflexivity|].
  vm_compute. intros H. lia.
Qed.

(** ** Installed extensions *)

(** C6: when an installed-extensions query resolves with a list in
    which some extension has the id [X] ([publisher.name]), the
    messages this adds hold no important-recommendation message for
    [X]; [X] is not among the workspace recommendations left after the
    filter; and the workspace message is added only on account of a
    configured id other than [X] that no listed extension has. *)
Theorem C6_installed_extension_is_not_notified
    (h : Host) (w : World) (q : nat) (local : list ILocalExtension) (X : string) :
  (exists l, In l local /\ installed_id l = X) ->
  exists new,
    messages (handle h w (Installed q local)) = messages w ++ new /\
    ~ In (ReallyRecommended X) new /\
    (forall allRecommendations,
       ~ In X (List.filter (not_installed local) allRecommendations)) /\
    (In WorkspaceRecommended new ->
     exists allRecommendations id,
       installedQueries w !! q = Some (WorkspaceInstalled allRecommendations) /\
       In id allRecommendations /\ id <> X /\ not_installed local id = true).
Proof.
  intros (l & Hl & HX).
  assert (Hnot : not_installed local X = false).
  { destruct (not_installed local X) eqn:Hn; [|reflexivity].
    exfalso. exact (proj1 (not_installed_spec local X) Hn l Hl HX). }
  exists (emitted h w (Installed q local)).
  split; [apply handle_messages|]. split; [|split].
  - cbn [emitted].
    destruct (installedQueries w !! q) as [[uri|allRecommendations]|]; [| |tauto].
    + rewrite in_map_iff. intros (id & [= ->] & Hin).
      unfold suggest_installed_ids in Hin.
      destruct (importantRecommendations (service w)) as [important|]; [|exact Hin].
      destruct (importantRecommendationsIgnoreList (service w)) as [ignoreList|];
        [|exact Hin].
      apply in_important_notified in Hin. destruct Hin as (_ & _ & Hin & _).
      exact (Hin l Hl HX).
    + destruct (length _ =? 0)%nat; [tauto|]. intros [H|[]]. discriminate.
  - intros allRecommendations Hin. apply filter_In in Hin. destruct Hin. congruence.
  - cbn [emitted].
    destruct (installedQueries w !! q) as [[uri|allRecommendations]|]; [| |intros []].
    + rewrite in_map_iff. intros (id & [=] & _).
    + destruct (List.filter (not_installed local) allRecommendations) as [|id rest] eqn:Hf;
        [intros []|].
      intros _. exists allRecommendations, id.
      assert (Hin : In id (List.filter (not_installed local) allRecommendations))
        by (rewrite Hf; now left).
      apply filter_In in Hin. destruct Hin as [Hin Hni].
      repeat split; auto. intros ->. congruence.
Qed.

Lemma C6_witness :
  exists new,
    messages
      (handle sample_host
         (run sample_host [InstalledRejected 0; ModelAdded (Some a_ts); Immediate]
            sample_world)
         (Installed 0 [ms_ts]))
    = messages
        (run sample_host [InstalledRejected 0; ModelAdded (Some a_ts); Immediate]
           sample_world) ++ new /\
    ~ In (ReallyRecommended "ms.ts") new /\
    (forall allRecommendations,
       ~ In "ms.ts" (List.filter (not_installed [ms_ts]) allRecommendations)) /\
    (In WorkspaceRecommended new ->
     exists allRecommendations id,
       installedQueries
         (run sample_host [InstalledRejected 0; ModelAdded (Some a_ts); Immediate]
            sample_world) !! 0
       = Some (WorkspaceInstalled allRecommendations) /\
       In id allRecommendations /\ id <> "ms.ts" /\
       not_installed [ms_ts] id = true).
Proof.
  apply (C6_installed_extension_is_not_notified sample_host
           (run sample_host [InstalledRejected 0; ModelAdded (Some a_ts); Immediate]
              sample_world)
           0 [ms_ts] "ms.ts").
  exists ms_ts. split; [left; reflexivity | reflexivity].
Defined.

(** ** The ignore list *)

Lemma stored_strings_lookup (st st' : Storage) (key : string) :
  st' !! (GLOBAL, key) = st !! (GLOBAL, key) ->
  stored_strings st' key = stored_strings st key.
Proof. intros H. unfold stored_strings, storage_get. now rewrite H. Qed.

Lemma handle_ignored (h : Host) (w : World) (e : Event) (id : string) :
  ignored id w ->
  ignored id (handle h w e) /\ ~ In (ReallyRecommended id) (emitted h w e).
Proof.
  intros [(ignoreList & Hign & Hin) (persisted & Hst & Hpin)].
  split.
  - split.
    + destruct (handle_service h w e) as (_ & _ & _ & S4 & _).
      destruct (S4 _ Hign) as [l' Hl']. exists (ignoreList ++ l').
      split; [exact Hl' | apply in_or_app; now left].
    + assert (Hkeep : forall st' : Storage,
                st' !! (GLOBAL, importantRecommendationsIgnoreKey)
                = storage w !! (GLOBAL, importantRecommendationsIgnoreKey) ->
                exists persisted',
                  stored_strings st' importantRecommendationsIgnoreKey = Some persisted' /\
                  In id persisted').
      { intros st' H. exists persisted. rewrite (stored_strings_lookup _ _ _ H). auto. }
      event_cases h w e; cbn [resume]; try (apply Hkeep; reflexivity).
      * apply Hkeep. cbn. unfold storage_store. now rewrite lookup_insert_ne.
      * apply Hkeep.
        destruct (suggest_installed_frame h u local
                    (set_installedQueries (delete q (installedQueries w)) w))
          as (_ & H & _).
        rewrite H. reflexivity.
      * apply Hkeep.
        destruct (workspace_installed_frame allRecommendations local
                    (set_installedQueries (delete q (installedQueries w)) w))
          as (_ & H & _).
        rewrite H. reflexivity.
      * unfold neverAgainAction. rewrite Hign. cbn.
        exists (ignoreList ++ [id']). split.
        -- apply stored_strings_stringify. unfold storage_store.
           now rewrite lookup_insert_eq.
        -- apply in_or_app. now left.
      * apply Hkeep. cbn. unfold storage_store. now rewrite lookup_insert_ne.
  - destruct e as [| |q local| | |]; cbn [emitted]; try tauto.
    destruct (installedQueries w !! q) as [[uri|allRecommendations]|]; [| |tauto].
    + rewrite in_map_iff. intros (id0 & [= ->] & Hid).
      unfold suggest_installed_ids in Hid.
      destruct (importantRecommendations (service w)) as [important|]; [|exact Hid].
      rewrite Hign in Hid.
      apply in_important_notified in Hid. tauto.
    + destruct (length _ =? 0)%nat; [tauto|]. intros [H|[]]. discriminate.
Qed.

Lemma run_ignored (h : Host) (evs : list Event) (w : World) (id : string) :
  ignored id w ->
  ignored id (run h evs w) /\ ~ In (ReallyRecommended id) (emitted_run h evs w).
Proof.
  unfold run. revert w. induction evs as [|e evs IH]; intros w Hw;
    cbn [fold_left emitted_run]; [tauto|].
  destruct (handle_ignored h w e id Hw) as [Hw' Hno].
  destruct (IH _ Hw') as [Hfin Hno'].
  split; [exact Hfin|].
  intros Hin. apply in_app_or in Hin. tauto.
Qed.

(** An engine started from a storage whose ignore list holds [id] never
    shows the important-recommendation message of [id]. *)
Lemma new_ignored (h : Host) (st : Storage) (w0 : World)
    (persisted : list string) (id : string) (evs : list Event) :
  stored_strings st importantRecommendationsIgnoreKey = Some persisted ->
  In id persisted ->
  ExtensionTipsService_new h st = Returned w0 ->
  ~ In (ReallyRecommended id) (messages (run h evs w0)).
Proof.
  intros Hst Hin Hnew.
  destruct (new_dormant_or_hydrated h st w0 Hnew) as [[Hd _]|[Hh Hen]].
  - apply (run_dormant h evs) in Hd. destruct Hd as (_ & _ & _ & Hd). apply Hd.
  - destruct Hh as (tips & _ & _ & Htips & _).
    destruct (new_hydrates h st tips Hen Htips) as (_ & _ & H3).
    destruct (H3 w0 Hnew) as (ign & recs & S1 & _ & S3 & _ & S5 & S6).
    assert (ign = persisted) by congruence. subst ign.
    assert (Hig : ignored id w0).
    { split; [eauto|]. exists persisted. rewrite S5. auto. }
    destruct (run_ignored h evs w0 id Hig) as [_ Hno].
    rewrite run_messages, S6. exact Hno.
Qed.

(** C4: once the "Don't show again" action of the important-
    recommendation message of [id] has run, no later event of the
    process adds an important-recommendation message for [id], and no
    engine constructed later from the storage the process leaves
    behind ever shows one. *)
Theorem C4_ignored_id_is_never_notified_again
    (h : Host) (st : Storage) (w0 : World) (evs : list Event)
    (m : nat) (id : string) :
  ExtensionTipsService_new h st = Returned w0 ->
  messages (run h evs w0) !! m = Some (ReallyRecommended id) ->
  let w1 := handle h (run h evs w0) (RunAction m NeverShowAgain) in
  forall evs1,
    (exists new,
       messages (run h evs1 w1) = messages w1 ++ new /\
       ~ In (ReallyRecommended id) new) /\
    (forall h' w0' evs',
       ExtensionTipsService_new h' (storage (run h evs1 w1)) = Returned w0' ->
       ~ In (ReallyRecommended id) (messages (run h' evs' w0'))).
Proof.
  intros Hnew Hm w1 evs1.
  assert (Hig : ignored id w1).
  { destruct (new_dormant_or_hydrated h st w0 Hnew) as [[Hd _]|[Hh _]].
    - apply (run_dormant h evs) in Hd. destruct Hd as (_ & _ & _ & Hd).
      exfalso. exact (Hd id (lookup_In _ _ _ Hm)).
    - apply (run_hydrated h evs) in Hh.
      destruct Hh as (_ & _ & ignoreList & _ & _ & _ & Hign).
      subst w1. cbn [handle]. rewrite Hm. unfold neverAgainAction. rewrite Hign.
      split.
      + exists (ignoreList ++ [id]). split; [reflexivity|].
        apply in_or_app. right. now left.
      + exists (ignoreList ++ [id]). split.
        * apply stored_strings_stringify. cbn. unfold storage_store.
          now rewrite lookup_insert_eq.
        * apply in_or_app. right. now left. }
  destruct (run_ignored h evs1 w1 id Hig) as [[_ (persisted & Hst & Hin)] Hno].
  split.
  - exists (emitted_run h evs1 w1). split; [apply run_messages | exact Hno].
  - intros h' w0' evs' Hnew'. exact (new_ignored h' _ w0' persisted id evs' Hst Hin Hnew').
Qed.

Lemma C4_witness :
  exists new,
    messages
      (run sample_host [ModelAdded (Some b_ts); Immediate; Installed 0 []]
         (handle sample_host
            (run sample_host
               [InstalledRejected 0; ModelAdded (Some a_ts); Immediate; Installed 0 []]
               sample_world)
            (RunAction 0 NeverShowAgain)))
    = messages
        (handle sample_host
           (run sample_host
              [InstalledRejected 0; ModelAdded (Some a_ts); Immediate; Installed 0 []]
              sample_world)
           (RunAction 0 NeverShowAgain)) ++ new /\
    ~ In (ReallyRecommended "ms.ts") new.
Proof.
  assert (Hnew : ExtensionTipsService_new sample_host ∅ = Returned sample_world)
    by (vm_compute; reflexivity).
  assert (Hm : messages
                 (run sample_host
                    [InstalledRejected 0; ModelAdded (Some a_ts); Immediate; Installed 0 []]
                    sample_world) !! 0 = Some (ReallyRecommended "ms.ts"))
    by (vm_compute; reflexivity).
  exact (proj1 (C4_ignored_id_is_never_notified_again sample_host ∅ sample_world
                  [InstalledRejected 0; ModelAdded (Some a_ts); Immediate; Installed 0 []]
                  0 "ms.ts" Hnew Hm
                  [ModelAdded (Some b_ts); Immediate; Installed 0 []])).
Defined.

(** Scenario B of the spec: the important tip [{ms.ts: **/*.ts}], no
    ignore list, nothing installed.  Observing [a.ts] shows one message
    for [ms.ts]; after its "Don't show again", observing [b.ts] shows
    no further one, and the ignore list is stored. *)
Example scenario_B :
  let w :=
    run sample_host
      [InstalledRejected 0; ModelAdded (Some a_ts); Immediate; Installed 0 []]
      sample_world in
  let w' :=
    run sample_host
      [RunAction 0 NeverShowAgain; ModelAdded (Some b_ts); Immediate; Installed 0 []]
      w in
  messages w = [ReallyRecommended "ms.ts"] /\
  messages w' = [ReallyRecommended "ms.ts"] /\
  stored_strings (storage w') importantRecommendationsIgnoreKey = Some ["ms.ts"].
Proof. vm_compute. repeat split; reflexivity. Qed.

(** Scenario C of the spec: the workspace recommends [pub.ext1] and
    [pub.ext2] and [pub.ext1] is installed; the message is shown, on
    account of [pub.ext2] alone. *)
Example scenario_C :
  messages (run sample_host [Installed 0 [pub_ext1]] sample_world)
  = [WorkspaceRecommended] /\
  List.filter (not_installed [pub_ext1]) (getWorkspaceRecommendations sample_host)
  = ["pub.ext2"].
Proof. vm_compute. split; reflexivity. Qed.

(** ** Further properties: the pattern index *)

Lemma dict_get_set {V : Type} (d : dict V) (k k' : string) (v : V) :
  dict_get (dict_set d k v) k'
  = if String.eqb k k' then Some v else dict_get d k'.
Proof.
  induction d as [|[k0 v0] d IH]; simpl.
  - reflexivity.
  - destruct (String.eqb_spec k0 k) as [->|Hne]; simpl.
    + destruct (String.eqb_spec k k'); reflexivity.
    + rewrite IH. destruct (String.eqb_spec k0 k') as [->|Hne'];
        [|reflexivity].
      destruct (String.eqb_spec k k'); [congruence | reflexivity].
Qed.

Lemma keys_dict_set_notin {V : Type} (d : dict V) (k : string) (v : V) :
  ~ In k (Object_keys d) -> Object_keys (dict_set d k v) = Object_keys d ++ [k].
Proof.
  induction d as [|[k0 v0] d IH]; simpl; [reflexivity|].
  intros Hnot. destruct (String.eqb_spec k0 k) as [->|Hne]; [tauto|].
  simpl. f_equal. apply IH. tauto.
Qed.

Lemma NoDup_snoc (l : list string) (k : string) :
  List.NoDup l -> ~ In k l -> List.NoDup (l ++ [k]).
Proof.
  induction l as [|x l IH]; intros Hd Hnot; simpl.
  - constructor; [simpl; tauto | constructor].
  - inversion Hd as [|? ? Hx Hd']; subst. constructor.
    + intros Hin. apply in_app_or in Hin. simpl in *. intuition congruence.
    + apply IH; [exact Hd' | simpl in Hnot; tauto].
Qed.

Lemma NoDup_keys_dict_set {V : Type} (d : dict V) (k : string) (v : V) :
  List.NoDup (Object_keys d) -> List.NoDup (Object_keys (dict_set d k v)).
Proof.
  intros Hd. destruct (in_dec string_dec k (Object_keys d)) as [Hin|Hnot].
  - now rewrite keys_dict_set_in.
  - rewrite keys_dict_set_notin by exact Hnot.
    apply NoDup_snoc; assumption.
Qed.

Lemma dict_get_In {V : Type} (d : dict V) (k : string) (v : V) :
  dict_get d k = Some v -> In (k, v) d.
Proof.
  induction d as [|[k0 v0] d IH]; simpl; [discriminate|].
  destruct (String.eqb_spec k0 k) as [->|Hne].
  - intros [= ->]. now left.
  - intros H. right. auto.
Qed.

Lemma In_dict_get {V : Type} (d : dict V) (k : string) (v : V) :
  List.NoDup (Object_keys d) -> In (k, v) d -> dict_get d k = Some v.
Proof.
  induction d as [|[k0 v0] d IH]; simpl; [tauto|].
  intros Hd [Heq|Hin].
  - injection Heq as -> ->. now rewrite String.eqb_refl.
  - inversion Hd as [|? ? Hnot Hd']; subst.
    destruct (String.eqb_spec k0 k) as [->|Hne].
    + exfalso. apply Hnot. change k with (fst (k, v)). now apply in_map.
    + auto.
Qed.

Lemma fold_group_tip_get (tips : dict string) (index : dict (list string))
    (pattern : string) :
  dict_get (fold_left group_tip tips index) pattern
  = match dict_get index pattern with
    | Some ids => Some (ids ++ tip_ids_for pattern tips)
    | None =>
        match tip_ids_for pattern tips with
        | [] => None
        | ids => Some ids
        end
    end.
Proof.
  revert index. induction tips as [|[id p] tips IH]; intros index;
    cbn [fold_left].
  - unfold tip_ids_for. cbn. destruct (dict_get index pattern);
      [now rewrite app_nil_r | reflexivity].
  - rewrite IH. unfold group_tip, tip_ids_for. cbn [List.filter snd].
    destruct (String.eqb_spec p pattern) as [->|Hne].
    + destruct (dict_get index pattern) as [ids|] eqn:Hget;
        rewrite dict_get_set, String.eqb_refl; cbn [map fst].
      * now rewrite <- app_assoc.
      * reflexivity.
    + destruct (dict_get index p) as [ids|];
        rewrite dict_get_set;
        (destruct (String.eqb_spec p pattern); [congruence|]);
        reflexivity.
Qed.

Lemma NoDup_keys_fold_group_tip (tips : dict string) (index : dict (list string)) :
  List.NoDup (Object_keys index) ->
  List.NoDup (Object_keys (fold_left group_tip tips index)).
Proof.
  revert index. induction tips as [|[id p] tips IH]; intros index Hd;
    cbn [fold_left]; [exact Hd|].
  apply IH. unfold group_tip.
  destruct (dict_get index p); apply NoDup_keys_dict_set, Hd.
Qed.

(** X1: the index that [_suggestTips] builds holds each pattern once;
    looking a pattern up gives the ids the tip map has for it, in the
    order of the tip map, and nothing for a pattern no id has. *)
Theorem X1_index_groups_ids_by_pattern (tips : dict string) (pattern : string) :
  dict_get (group_tips tips) pattern
  = match tip_ids_for pattern tips with
    | [] => None
    | ids => Some ids
    end
  /\ List.NoDup (Object_keys (group_tips tips)).
Proof.
  unfold group_tips. split.
  - rewrite fold_group_tip_get. reflexivity.
  - apply NoDup_keys_fold_group_tip. constructor.
Qed.

Lemma in_tip_ids_for (tips : dict string) (pattern id : string) :
  In id (tip_ids_for pattern tips) <-> In (id, pattern) tips.
Proof.
  unfold tip_ids_for. rewrite in_map_iff. split.
  - intros ([id' p] & Hfst & Hin). apply filter_In in Hin.
    destruct Hin as [Hin Heq]. cbn in *. subst id'.
    apply String.eqb_eq in Heq. now subst.
  - intros Hin. exists (id, pattern). split; [reflexivity|].
    apply filter_In. split; [exact Hin|]. cbn. apply String.eqb_refl.
Qed.

(** An id is under a pattern of the index exactly when the tip map
    gives the id that pattern. *)
Lemma in_group_tips (tips : dict string) (pattern id : string) :
  (exists ids, In (pattern, ids) (group_tips tips) /\ In id ids)
  <-> In (id, pattern) tips.
Proof.
  assert (Hget : dict_get (group_tips tips) pattern
                 = match tip_ids_for pattern tips with
                   | [] => None
                   | ids => Some ids
                   end)
    by (unfold group_tips; now rewrite fold_group_tip_get).
  assert (Hnd : List.NoDup (Object_keys (group_tips tips)))
    by (apply NoDup_keys_fold_group_tip; constructor).
  rewrite <- in_tip_ids_for. split.
  - intros (ids & Hin & Hid).
    apply (In_dict_get _ _ _ Hnd) in Hin. rewrite Hget in Hin.
    destruct (tip_ids_for pattern tips); [discriminate|].
    now injection Hin as <-.
  - intros Hid. destruct (tip_ids_for pattern tips) as [|x l] eqn:Hl; [destruct Hid|].
    exists (x :: l). split; [|exact Hid]. apply dict_get_In, Hget.
Qed.

(** ** Further properties: the recommendation set *)

(** X2: for an engine built with a tip map, the deferred unit of a
    document adds exactly the ids whose pattern in the tip map matches
    the path of the document: an id is recommended after the unit when
    it was recommended before or the tip map gives it a matching
    pattern, and in no other case. *)
Theorem X2_unit_recommends_exactly_the_matches
    (h : Host) (st : Storage) (w0 : World) (tips : dict string)
    (evs : list Event) (uri : URI) (rest : list URI) (id : string) :
  ExtensionTipsService_new h st = Returned w0 ->
  product_extensionTips h = Some tips ->
  immediates (run h evs w0) = uri :: rest ->
  (In id (getRecommendations (handle h (run h evs w0) Immediate)) <->
   In id (getRecommendations (run h evs w0)) \/
   exists pattern,
     In (id, pattern) tips /\ glob_match h pattern (fsPath uri) = true).
Proof.
  intros Hnew Htips Hq.
  destruct (new_dormant_or_hydrated h st w0 Hnew) as [[Hd _]|[Hh _]].
  - apply (run_dormant h evs) in Hd. destruct Hd as (_ & Hd & _). congruence.
  - apply (run_hydrated h evs) in Hh.
    destruct Hh as (tips' & important & ignoreList & H1 & H2 & _).
    assert (tips' = tips) by congruence. subst tips'.
    cbn [handle]. rewrite Hq, suggest_immediate_recommendations.
    rewrite in_fold_recommend_matching.
    cbn [set_immediates service]. rewrite H2.
    unfold getRecommendations. split.
    + intros [H|(pattern & ids & Hin & Hm & Hid)]; [now left|].
      right. exists pattern. split; [|exact Hm].
      apply in_group_tips. eauto.
    + intros [H|(pattern & Hin & Hm)]; [now left|].
      right. apply in_group_tips in Hin. destruct Hin as (ids & Hin & Hid).
      eauto.
Qed.

Lemma X2_witness :
  In "ms.ts"
    (getRecommendations
       (handle sample_host (run sample_host [ModelAdded (Some a_ts)] sample_world)
          Immediate)) <->
  In "ms.ts"
    (getRecommendations (run sample_host [ModelAdded (Some a_ts)] sample_world)) \/
  exists pattern,
    In ("ms.ts", pattern)
      [("foo.bar", "**/*.md"); ("foo.baz", "**/*.md"); ("ms.ts", "**/*.ts")] /\
    glob_match sample_host pattern (fsPath a_ts) = true.
Proof.
  assert (Hnew : ExtensionTipsService_new sample_host ∅ = Returned sample_world)
    by (vm_compute; reflexivity).
  assert (Hq : immediates (run sample_host [ModelAdded (Some a_ts)] sample_world)
               = a_ts :: []) by (vm_compute; reflexivity).
  exact (X2_unit_recommends_exactly_the_matches sample_host ∅ sample_world
           [("foo.bar", "**/*.md"); ("foo.baz", "**/*.md"); ("ms.ts", "**/*.ts")]
           [ModelAdded (Some a_ts)] a_ts [] "ms.ts" Hnew eq_refl Hq).
Defined.

Lemma NoDup_keys_recommend_all (ids : list string) (d : dict bool) :
  List.NoDup (Object_keys d) -> List.NoDup (Object_keys (recommend_all ids d)).
Proof.
  unfold recommend_all. revert d.
  induction ids as [|x ids IH]; intros d Hd; cbn [fold_left]; [exact Hd|].
  apply IH, NoDup_keys_dict_set, Hd.
Qed.

Lemma NoDup_keys_fold_recommend_matching (h : Host) (path : string)
    (index : dict (list string)) (d : dict bool) :
  List.NoDup (Object_keys d) ->
  List.NoDup (Object_keys (fold_left (recommend_matching h path) index d)).
Proof.
  revert d. induction index as [|[p ids] index IH]; intros d Hd;
    cbn [fold_left]; [exact Hd|].
  apply IH. unfold recommend_matching.
  destruct (glob_match h p path); [apply NoDup_keys_recommend_all|]; exact Hd.
Qed.

Lemma handle_recommendations (h : Host) (w : World) (e : Event) :
  _recommendations (service (handle h w e)) = _recommendations (service w)
  \/ exists uri rest,
       e = Immediate /\ immediates w = uri :: rest /\
       _recommendations (service (handle h w e))
       = fold_left (recommend_matching h (fsPath uri))
           (_availableRecommendations (service w)) (_recommendations (service w)).
Proof.
  event_cases h w e; cbn [resume]; try (left; reflexivity).
  - right. exists u, rest. repeat split.
  - left.
    destruct (suggest_installed_frame h u local
                (set_installedQueries (delete q (installedQueries w)) w)) as (H & _).
    rewrite H. reflexivity.
  - left.
    destruct (workspace_installed_frame allRecommendations local
                (set_installedQueries (delete q (installedQueries w)) w)) as (H & _).
    rewrite H. reflexivity.
  - left. unfold neverAgainAction.
    destruct (importantRecommendationsIgnoreList (service w)); reflexivity.
Qed.

Lemma run_NoDup_recommendations (h : Host) (evs : list Event) (w : World) :
  List.NoDup (getRecommendations w) -> List.NoDup (getRecommendations (run h evs w)).
Proof.
  unfold run, getRecommendations. revert w.
  induction evs as [|e evs IH]; intros w Hw; [exact Hw|].
  cbn [fold_left]. apply IH.
  destruct (handle_recommendations h w e) as [->|(uri & rest & _ & _ & ->)];
    [exact Hw | apply NoDup_keys_fold_recommend_matching, Hw].
Qed.

Lemma new_NoDup_recommendations (h : Host) (st : Storage) (w0 : World) :
  ExtensionTipsService_new h st = Returned w0 ->
  List.NoDup (getRecommendations w0).
Proof.
  intros Hnew. unfold getRecommendations.
  destruct (new_dormant_or_hydrated h st w0 Hnew) as [[Hd _]|[Hh Hen]].
  - destruct Hd as (-> & _). constructor.
  - destruct Hh as (tips & _ & _ & Htips & _).
    destruct (new_hydrates h st tips Hen Htips) as (_ & _ & H3).
    destruct (H3 w0 Hnew) as (_ & recs & _ & _ & _ & -> & _).
    apply NoDup_keys_recommend_all. constructor.
Qed.

(** X3: [getRecommendations()] never lists an id twice, whatever the
    stored list held and whatever documents are observed. *)
Theorem X3_recommendations_have_no_duplicates
    (h : Host) (st : Storage) (w0 : World) (evs : list Event) :
  ExtensionTipsService_new h st = Returned w0 ->
  List.NoDup (getRecommendations (run h evs w0)).
Proof.
  intros Hnew. apply run_NoDup_recommendations, (new_NoDup_recommendations h st), Hnew.
Qed.

Lemma X3_witness :
  List.NoDup
    (getRecommendations
       (run sample_host [ModelAdded (Some readme); Immediate] doubled_world)).
Proof.
  assert (Hnew : ExtensionTipsService_new sample_host doubled_storage
                 = Returned doubled_world) by (vm_compute; reflexivity).
  exact (X3_recommendations_have_no_duplicates sample_host doubled_storage
           doubled_world [ModelAdded (Some readme); Immediate] Hnew).
Defined.

(** ** Further properties: what is persisted *)

Lemma handle_recommendations_synced (h : Host) (w : World) (e : Event) :
  recommendations_synced w -> recommendations_synced (handle h w e).
Proof.
  unfold recommendations_synced, getRecommendations. intros Hs.
  assert (Hkeep : forall w' : World,
            storage w' !! (GLOBAL, recommendationsKey)
            = storage w !! (GLOBAL, recommendationsKey) ->
            _recommendations (service w') = _recommendations (service w) ->
            stored_strings (storage w') recommendationsKey
            = Some (Object_keys (_recommendations (service w')))).
  { intros w' H1 H2. rewrite (stored_strings_lookup _ _ _ H1), H2. exact Hs. }
  event_cases h w e; cbn [resume]; try (apply Hkeep; reflexivity).
  - apply stored_strings_stringify. cbn. unfold storage_store.
    now rewrite lookup_insert_eq.
  - destruct (suggest_installed_frame h u local
                (set_installedQueries (delete q (installedQueries w)) w))
      as (H1 & H2 & _).
    apply Hkeep; [rewrite H2 | rewrite H1]; reflexivity.
  - destruct (workspace_installed_frame allRecommendations local
                (set_installedQueries (delete q (installedQueries w)) w))
      as (H1 & H2 & _).
    apply Hkeep; [rewrite H2 | rewrite H1]; reflexivity.
  - unfold neverAgainAction.
    destruct (importantRecommendationsIgnoreList (service w));
      apply Hkeep; try reflexivity.
    cbn. unfold storage_store. now rewrite lookup_insert_ne.
  - apply Hkeep; [|reflexivity].
    cbn. unfold storage_store. now rewrite lookup_insert_ne.
Qed.

Lemma run_recommendations_synced (h : Host) (evs : list Event) (w : World) :
  recommendations_synced w -> recommendations_synced (run h evs w).
Proof.
  unfold run. revert w. induction evs as [|e evs IH]; intros w Hw; [exact Hw|].
  cbn [fold_left]. apply IH, handle_recommendations_synced, Hw.
Qed.

Lemma suggest_immediate_synced (h : Host) (uri : URI) (w : World) :
  recommendations_synced (_suggest_immediate h uri w).
Proof.
  unfold recommendations_synced. apply stored_strings_stringify.
  cbn. unfold storage_store. now rewrite lookup_insert_eq.
Qed.

(** X4: once a deferred unit has run, the list stored under the
    recommendations key reads back as [getRecommendations()], same ids
    in the same order, and it goes on doing so through every later
    event: the stored list never lags behind the set. *)
Theorem X4_stored_recommendations_follow_the_set
    (h : Host) (w : World) (uri : URI) (evs : list Event) :
  stored_strings (storage (run h evs (_suggest_immediate h uri w))) recommendationsKey
  = Some (getRecommendations (run h evs (_suggest_immediate h uri w))).
Proof. apply run_recommendations_synced, suggest_immediate_synced. Qed.

Lemma keys_recommend_all_fresh (ids : list string) (d : dict bool) :
  List.NoDup ids -> (forall id, In id ids -> ~ In id (Object_keys d)) ->
  Object_keys (recommend_all ids d) = Object_keys d ++ ids.
Proof.
  unfold recommend_all. revert d.
  induction ids as [|x ids IH]; intros d Hnd Hfresh; cbn [fold_left].
  - now rewrite app_nil_r.
  - inversion Hnd as [|? ? Hx Hnd']; subst.
    rewrite IH; [|exact Hnd'|].
    + rewrite keys_dict_set_notin by (apply Hfresh; now left).
      now rewrite <- app_assoc.
    + intros id Hid Hin. apply in_keys_dict_set in Hin.
      destruct Hin as [->|Hin]; [tauto|].
      apply (Hfresh id); [now right | exact Hin].
Qed.

(** X5: the recommendation set survives a restart.  When an engine has
    run at least one deferred unit, an engine constructed afterwards
    from the storage it leaves (gallery enabled, tip map present)
    starts with the same [getRecommendations()], ids and order. *)
Theorem X5_recommendations_survive_restart
    (h : Host) (st : Storage) (w0 : World) (evs0 evs : list Event)
    (uri : URI) (rest : list URI) (h' : Host) (w0' : World) :
  ExtensionTipsService_new h st = Returned w0 ->
  immediates (run h evs0 w0) = uri :: rest ->
  galleryService_isEnabled h' = true ->
  product_extensionTips h' <> None ->
  ExtensionTipsService_new h' (storage (run h (evs0 ++ Immediate :: evs) w0))
  = Returned w0' ->
  getRecommendations w0' = getRecommendations (run h (evs0 ++ Immediate :: evs) w0).
Proof.
  intros Hnew Hq Hen Htips Hnew'.
  set (w := run h (evs0 ++ Immediate :: evs) w0) in *.
  assert (Hsync : recommendations_synced w).
  { subst w. rewrite run_app.
    change (run h (Immediate :: evs) (run h evs0 w0))
      with (run h evs (handle h (run h evs0 w0) Immediate)).
    cbn [handle]. rewrite Hq.
    apply run_recommendations_synced, suggest_immediate_synced. }
  assert (Hnd : List.NoDup (getRecommendations w)).
  { subst w. apply run_NoDup_recommendations, (new_NoDup_recommendations h st), Hnew. }
  destruct (product_extensionTips h') as [tips'|] eqn:Ht; [|congruence].
  destruct (new_hydrates h' (storage w) tips' Hen Ht) as (_ & _ & H3).
  destruct (H3 w0' Hnew') as (_ & recs & _ & S2 & _ & S4 & _).
  unfold recommendations_synced in Hsync. rewrite Hsync in S2.
  injection S2 as <-.
  unfold getRecommendations at 1. rewrite S4.
  rewrite keys_recommend_all_fresh; [reflexivity | exact Hnd | intros id _ []].
Qed.

(** A completion that is a return is the return of its value. *)
Lemma returned_value {A : Type} (c : Completion A) (d : A) :
  match c with Returned _ => true | _ => false end = true ->
  c = Returned match c with Returned a => a | _ => d end.
Proof. destruct c; [reflexivity | discriminate | discriminate]. Qed.

Lemma X5_witness :
  getRecommendations restarted_world
  = getRecommendations
      (run sample_host
         ([ModelAdded (Some readme)] ++ Immediate :: [InstalledRejected 0])
         sample_world).
Proof.
  assert (Hnew : ExtensionTipsService_new sample_host ∅ = Returned sample_world)
    by (vm_compute; reflexivity).
  assert (Hq : immediates (run sample_host [ModelAdded (Some readme)] sample_world)
               = readme :: []) by (vm_compute; reflexivity).
  assert (Ht : product_extensionTips busy_host <> None) by discriminate.
  assert (Hnew' :
    ExtensionTipsService_new busy_host
      (storage (run sample_host
                  ([ModelAdded (Some readme)] ++ Immediate :: [InstalledRejected 0])
                  sample_world))
    = Returned restarted_world)
    by (apply returned_value; vm_compute; reflexivity).
  exact (X5_recommendations_survive_restart sample_host ∅ sample_world
           [ModelAdded (Some readme)] [InstalledRejected 0] readme [] busy_host
           restarted_world Hnew Hq eq_refl Ht Hnew').
Defined.

(** ** Further properties: the ignore list *)

Lemma handle_ignoreList_synced (h : Host) (w : World) (e : Event) :
  ignoreList_synced w -> ignoreList_synced (handle h w e).
Proof.
  unfold ignoreList_synced. intros Hs.
  assert (Hkeep : forall w' : World,
            storage w' !! (GLOBAL, importantRecommendationsIgnoreKey)
            = storage w !! (GLOBAL, importantRecommendationsIgnoreKey) ->
            importantRecommendationsIgnoreList (service w')
            = importantRecommendationsIgnoreList (service w) ->
            forall l, importantRecommendationsIgnoreList (service w') = Some l ->
                      stored_strings (storage w') importantRecommendationsIgnoreKey = Some l).
  { intros w' H1 H2 l Hl. rewrite (stored_strings_lookup _ _ _ H1).
    apply Hs. congruence. }
  event_cases h w e; cbn [resume]; try (apply Hkeep; reflexivity).
  - apply Hkeep; [|reflexivity]. cbn. unfold storage_store.
    now rewrite lookup_insert_ne.
  - destruct (suggest_installed_frame h u local
                (set_installedQueries (delete q (installedQueries w)) w))
      as (H1 & H2 & _).
    apply Hkeep; [rewrite H2 | rewrite H1]; reflexivity.
  - destruct (workspace_installed_frame allRecommendations local
                (set_installedQueries (delete q (installedQueries w)) w))
      as (H1 & H2 & _).
    apply Hkeep; [rewrite H2 | rewrite H1]; reflexivity.
  - unfold neverAgainAction.
    destruct (importantRecommendationsIgnoreList (service w)) as [l0|] eqn:Hl0;
      [|apply Hkeep; [reflexivity | now rewrite Hl0]].
    cbn. intros l [= <-]. apply stored_strings_stringify.
    unfold storage_store. now rewrite lookup_insert_eq.
  - apply Hkeep; [|reflexivity]. cbn. unfold storage_store.
    now rewrite lookup_insert_ne.
Qed.

Lemma run_ignoreList_synced (h : Host) (evs : list Event) (w : World) :
  ignoreList_synced w -> ignoreList_synced (run h evs w).
Proof.
  unfold run. revert w. induction evs as [|e evs IH]; intros w Hw; [exact Hw|].
  cbn [fold_left]. apply IH, handle_ignoreList_synced, Hw.
Qed.

Lemma new_ignoreList_synced (h : Host) (st : Storage) (w0 : World) :
  ExtensionTipsService_new h st = Returned w0 -> ignoreList_synced w0.
Proof.
  intros Hnew l Hl.
  destruct (new_dormant_or_hydrated h st w0 Hnew) as [[Hd _]|[Hh Hen]].
  - destruct Hd as (Hd & _). rewrite Hd in Hl. discriminate.
  - destruct Hh as (tips & _ & _ & Htips & _).
    destruct (new_hydrates h st tips Hen Htips) as (_ & _ & H3).
    destruct (H3 w0 Hnew) as (ign & _ & S1 & _ & S3 & _ & S5 & _).
    rewrite S5. congruence.
Qed.

(** X6: the ignore list of the engine and the stored one never part.
    Whenever the engine has an ignore list, the list stored under the
    ignore key reads back as exactly that list, duplicates and order
    kept; so an engine constructed later from that storage (gallery
    enabled, tip map present) starts with the same ignore list. *)
Theorem X6_ignore_list_is_always_persisted
    (h : Host) (st : Storage) (w0 : World) (evs : list Event)
    (ignoreList : list string) :
  ExtensionTipsService_new h st = Returned w0 ->
  importantRecommendationsIgnoreList (service (run h evs w0)) = Some ignoreList ->
  stored_strings (storage (run h evs w0)) importantRecommendationsIgnoreKey
  = Some ignoreList
  /\ forall h' w0',
       galleryService_isEnabled h' = true ->
       product_extensionTips h' <> None ->
       ExtensionTipsService_new h' (storage (run h evs w0)) = Returned w0' ->
       importantRecommendationsIgnoreList (service w0') = Some ignoreList.
Proof.
  intros Hnew Hl.
  assert (Hs : stored_strings (storage (run h evs w0)) importantRecommendationsIgnoreKey
               = Some ignoreList).
  { apply (run_ignoreList_synced h evs w0 (new_ignoreList_synced h st w0 Hnew)), Hl. }
  split; [exact Hs|].
  intros h' w0' Hen Htips Hnew'.
  destruct (product_extensionTips h') as [tips'|] eqn:Ht; [|congruence].
  destruct (new_hydrates h' (storage (run h evs w0)) tips' Hen Ht) as (_ & _ & H3).
  destruct (H3 w0' Hnew') as (ign & _ & S1 & _ & S3 & _).
  congruence.
Qed.

Lemma X6_witness :
  stored_strings
    (storage
       (run sample_host
          [InstalledRejected 0; ModelAdded (Some a_ts); Immediate; Installed 0 [];
           RunAction 0 NeverShowAgain; RunAction 0 NeverShowAgain]
          sample_world))
    importantRecommendationsIgnoreKey
  = Some ["ms.ts"; "ms.ts"]
  /\ forall h' w0',
       galleryService_isEnabled h' = true ->
       product_extensionTips h' <> None ->
       ExtensionTipsService_new h'
         (storage
            (run sample_host
               [InstalledRejected 0; ModelAdded (Some a_ts); Immediate; Installed 0 [];
                RunAction 0 NeverShowAgain; RunAction 0 NeverShowAgain]
               sample_world)) = Returned w0' ->
       importantRecommendationsIgnoreList (service w0') = Some ["ms.ts"; "ms.ts"].
Proof.
  assert (Hnew : ExtensionTipsService_new sample_host ∅ = Returned sample_world)
    by (vm_compute; reflexivity).
  assert (Hl : importantRecommendationsIgnoreList
                 (service
                    (run sample_host
                       [InstalledRejected 0; ModelAdded (Some a_ts); Immediate;
                        Installed 0 []; RunAction 0 NeverShowAgain;
                        RunAction 0 NeverShowAgain]
                       sample_world)) = Some ["ms.ts"; "ms.ts"])
    by (vm_compute; reflexivity).
  exact (X6_ignore_list_is_always_persisted sample_host ∅ sample_world
           [InstalledRejected 0; ModelAdded (Some a_ts); Immediate; Installed 0 [];
            RunAction 0 NeverShowAgain; RunAction 0 NeverShowAgain]
           ["ms.ts"; "ms.ts"] Hnew Hl).
Defined.

Lemma run_ignoreList_grows (h : Host) (evs : list Event) (w : World) (l : list string) :
  importantRecommendationsIgnoreList (service w) = Some l ->
  exists l', importantRecommendationsIgnoreList (service (run h evs w)) = Some (l ++ l').
Proof.
  unfold run. revert w l. induction evs as [|e evs IH]; intros w l Hl.
  - exists []. now rewrite app_nil_r.
  - cbn [fold_left].
    destruct (handle_service h w e) as (_ & _ & _ & S4 & _).
    destruct (S4 l Hl) as [l1 Hl1].
    destruct (IH _ _ Hl1) as [l2 Hl2].
    exists (l1 ++ l2). now rewrite app_assoc.
Qed.

(** X7: the ignore list is only ever appended to.  Through any run the
    list the engine had stays a prefix of the list it has: no id is
    taken off and none is moved. *)
Theorem X7_ignore_list_is_append_only
    (h : Host) (w : World) (evs : list Event) (l : list string) :
  importantRecommendationsIgnoreList (service w) = Some l ->
  exists l',
    importantRecommendationsIgnoreList (service (run h evs w)) = Some (l ++ l').
Proof. apply run_ignoreList_grows. Qed.

Lemma X7_witness :
  exists l',
    importantRecommendationsIgnoreList
      (service
         (run sample_host
            [InstalledRejected 0; ModelAdded (Some a_ts); Immediate; Installed 0 [];
             RunAction 0 NeverShowAgain]
            sample_world)) = Some ([] ++ l').
Proof.
  apply (X7_ignore_list_is_append_only sample_host sample_world
           [InstalledRejected 0; ModelAdded (Some a_ts); Immediate; Installed 0 [];
            RunAction 0 NeverShowAgain] []).
  vm_compute. reflexivity.
Defined.

(** ** Further properties: the two gates *)



Lemma filter_nil_iff {A : Type} (f : A -> bool) (l : list A) :
  List.filter f l = [] <-> forall x, In x l -> f x = false.
Proof.
  induction l as [|y l IH]; simpl; [tauto|].
  destruct (f y) eqn:Hy.
  - split; [discriminate|]. intros H. specialize (H y (or_introl eq_refl)). congruence.
  - rewrite IH. split.
    + intros H x [<-|Hx]; auto.
    + intros H x Hx. apply H. now right.
Qed.

(** X9: when the query of the workspace check resolves, the workspace
    message is shown, once, if some configured recommendation is the
    [publisher.name] of no listed extension; if every configured
    recommendation is installed, nothing is shown. *)
Theorem X9_workspace_gate_notifies_exactly
    (h : Host) (w : World) (q : nat) (allRecommendations : list string)
    (local : list ILocalExtension) :
  installedQueries w !! q = Some (WorkspaceInstalled allRecommendations) ->
  ((exists id, In id allRecommendations /\
               forall l, In l local -> installed_id l <> id) ->
   messages (handle h w (Installed q local)) = messages w ++ [WorkspaceRecommended]) /\
  ((forall id, In id allRecommendations ->
               exists l, In l local /\ installed_id l = id) ->
   messages (handle h w (Installed q local)) = messages w).
Proof.
  intros Hq. rewrite handle_messages. cbn [emitted]. rewrite Hq. split.
  - intros (id & Hin & Hnot).
    destruct (List.filter (not_installed local) allRecommendations) as [|x r] eqn:Hf;
      [|reflexivity].
    exfalso. pose proof (proj1 (filter_nil_iff _ _) Hf id Hin) as Hfalse.
    apply not_installed_spec in Hnot. congruence.
  - intros Hall.
    assert (Hf : List.filter (not_installed local) allRecommendations = []).
    { apply filter_nil_iff. intros id Hin.
      destruct (Hall id Hin) as (l & Hl & Hid).
      destruct (not_installed local id) eqn:Hn; [|reflexivity].
      exfalso. exact (proj1 (not_installed_spec local id) Hn l Hl Hid). }
    rewrite Hf. cbn. apply app_nil_r.
Qed.

Lemma X9_witness :
  ((exists id, In id ["pub.ext1"; "pub.ext2"] /\
               forall l, In l [pub_ext1] -> installed_id l <> id) ->
   messages (handle sample_host sample_world (Installed 0 [pub_ext1]))
   = messages sample_world ++ [WorkspaceRecommended]) /\
  ((forall id, In id ["pub.ext1"; "pub.ext2"] ->
               exists l, In l [pub_ext1] /\ installed_id l = id) ->
   messages (handle sample_host sample_world (Installed 0 [pub_ext1]))
   = messages sample_world).
Proof.
  apply (X9_workspace_gate_notifies_exactly sample_host sample_world 0
           ["pub.ext1"; "pub.ext2"] [pub_ext1]).
  vm_compute. reflexivity.
Defined.

Lemma suggestWorkspaceRecommendations_none (h : Host) (w : World) :
  getWorkspaceRecommendations h = [] -> _suggestWorkspaceRecommendations h w = w.
Proof.
  intros Hnone. unfold _suggestWorkspaceRecommendations. rewrite Hnone.
  destruct (storage_getBoolean _ _ _ _); reflexivity.
Qed.

Lemma new_no_workspace_query (h : Host) (st : Storage) (w0 : World) :
  getWorkspaceRecommendations h = [] ->
  ExtensionTipsService_new h st = Returned w0 ->
  installedQueries w0 = [] /\ messages w0 = [].
Proof.
  intros Hnone. unfold ExtensionTipsService_new.
  destruct (galleryService_isEnabled h); cbn [negb];
    [|intros [= <-]; split; reflexivity].
  unfold _suggestTips.
  destruct (product_extensionTips h) as [tips|].
  2: { intros [= <-]. rewrite suggestWorkspaceRecommendations_none by exact Hnone.
       split; reflexivity. }
  destruct (JSON.parse _) as [ignoreValue|]; [|discriminate].
  destruct (JSON.parse _) as [storedValue|]; [|discriminate].
  destruct (as_string_array ignoreValue) as [ignoreList|]; [|discriminate].
  destruct (as_string_array storedValue) as [storedRecommendations|]; [|discriminate].
  intros [= <-]. rewrite suggestWorkspaceRecommendations_none by exact Hnone.
  match goal with |- context [fold_left ?f ?l ?w] =>
    destruct (fold_suggest_models l w) as (_ & _ & G3 & G4)
  end.
  rewrite G3, G4. split; reflexivity.
Qed.

(** X10: when the configuration has no workspace recommendations (the
    setting is absent or is the empty list), the constructor asks for
    no installed extensions on behalf of the workspace check and the
    workspace message is never shown. *)
Theorem X10_no_workspace_recommendations_no_message
    (h : Host) (st : Storage) (w0 : World) (evs : list Event) :
  getWorkspaceRecommendations h = [] ->
  ExtensionTipsService_new h st = Returned w0 ->
  workspace_queries w0 = 0 /\ workspace_messages (run h evs w0) = 0.
Proof.
  intros Hnone Hnew.
  destruct (new_no_workspace_query h st w0 Hnone Hnew) as (Hq & Hm).
  pose proof (run_workspace_count h evs w0) as Hle.
  unfold workspace_queries, workspace_messages in *.
  rewrite Hq, Hm in *. cbn in *. split; [reflexivity | lia].
Qed.

Lemma X10_witness :
  workspace_queries busy_world = 0 /\
  workspace_messages
    (run busy_host [Immediate; Installed 0 []; Immediate; Installed 0 []] busy_world) = 0.
Proof.
  assert (Hnew : ExtensionTipsService_new busy_host ∅ = Returned busy_world)
    by (vm_compute; reflexivity).
  exact (X10_no_workspace_recommendations_no_message busy_host ∅ busy_world
           [Immediate; Installed 0 []; Immediate; Installed 0 []] eq_refl Hnew).
Defined.

Lemma new_fields (h : Host) (st : Storage) (w0 : World) (tips : dict string) :
  galleryService_isEnabled h = true ->
  product_extensionTips h = Some tips ->
  ExtensionTipsService_new h st = Returned w0 ->
  immediates w0 = model_uris (modelService_getModels h) /\
  _disposables (service w0) = [ModelAddedListener] /\
  _availableRecommendations (service w0) = group_tips tips /\
  importantRecommendations (service w0)
  = Some match product_extensionImportantTips h with
         | Some t => t
         | None => []
         end.
Proof.
  intros Hen Htips. unfold ExtensionTipsService_new, _suggestTips.
  rewrite Hen, Htips. cbn [negb].
  destruct (JSON.parse _) as [ignoreValue|]; [|discriminate].
  destruct (JSON.parse _) as [storedValue|]; [|discriminate].
  destruct (as_string_array ignoreValue) as [ignoreList|]; [|discriminate].
  destruct (as_string_array storedValue) as [storedRecommendations|]; [|discriminate].
  intros [= <-].
  match goal with |- context [_suggestWorkspaceRecommendations h ?w] =>
    destruct (suggestWorkspaceRecommendations_frame h w) as (F1 & _ & F3 & _)
  end.
  rewrite F1, F3.
  match goal with |- context [fold_left ?f ?l ?w] =>
    destruct (fold_suggest_models l w) as (G1 & _);
    assert (Gi : immediates (fold_left f l w) = immediates w ++ model_uris l)
  end.
  { generalize (modelService_getModels h). intros models.
    match goal with |- immediates (fold_left _ _ ?w) = _ => generalize w end.
    induction models as [|[u|] models IH]; intros w; cbn [fold_left model_uris].
    - now rewrite app_nil_r.
    - rewrite IH. cbn. now rewrite <- app_assoc.
    - apply IH. }
  rewrite G1, Gi. repeat split.
Qed.

(** X11: when the product descriptor has no important tips (absent, or
    an empty map), no important-recommendation message is ever shown,
    whatever documents are observed and whatever is installed. *)
Theorem X11_no_important_tips_no_message
    (h : Host) (st : Storage) (w0 : World) (evs : list Event) :
  product_extensionImportantTips h = None \/
  product_extensionImportantTips h = Some [] ->
  ExtensionTipsService_new h st = Returned w0 ->
  important_messages (run h evs w0) = [].
Proof.
  intros Hnone Hnew.
  assert (Himp : importantRecommendations (service w0) = None \/
                 importantRecommendations (service w0) = Some []).
  { destruct (new_dormant_or_hydrated h st w0 Hnew) as [[Hd _]|[Hh Hen]].
    - destruct Hd as (-> & _). now left.
    - destruct Hh as (tips & _ & _ & Htips & _).
      destruct (new_fields h st w0 tips Hen Htips Hnew) as (_ & _ & _ & ->).
      right. destruct Hnone as [->| ->]; reflexivity. }
  assert (Hm : messages w0 = []).
  { destruct (new_workspace_count h st w0 Hnew) as (Hm & _). exact Hm. }
  unfold important_messages. rewrite run_messages, Hm. cbn [app].
  clear Hnew Hm Hnone. revert w0 Himp.
  induction evs as [|e evs IH]; intros w Himp; [reflexivity|].
  cbn [emitted_run]. rewrite List.filter_app, IH.
  - rewrite app_nil_r. destruct e as [| |q local| | |]; try reflexivity.
    cbn [emitted]. destruct (installedQueries w !! q) as [[uri|allRecommendations]|];
      [|destruct (length _ =? 0)%nat; reflexivity | reflexivity].
    unfold suggest_installed_ids.
    destruct Himp as [->| ->]; [reflexivity|].
    destruct (importantRecommendationsIgnoreList (service w)); reflexivity.
  - destruct (handle_service h w e) as (_ & -> & _). exact Himp.
Qed.

Lemma X11_witness :
  important_messages
    (run busy_host [Immediate; Installed 0 []; Immediate; Installed 0 []] busy_world)
  = [].
Proof.
  assert (Hnew : ExtensionTipsService_new busy_host ∅ = Returned busy_world)
    by (vm_compute; reflexivity).
  exact (X11_no_important_tips_no_message busy_host ∅ busy_world
           [Immediate; Installed 0 []; Immediate; Installed 0 []]
           (or_introl eq_refl) Hnew).
Defined.

(** ** Further properties: what the engine leaves alone *)

Lemma handle_storage_frame (h : Host) (w : World) (e : Event)
    (k : StorageScope * string) :
  ~ In k engine_keys -> storage (handle h w e) !! k = storage w !! k.
Proof.
  intros Hk.
  assert (H1 : (GLOBAL, recommendationsKey) <> k)
    by (intros <-; apply Hk; cbn; auto).
  assert (H2 : (GLOBAL, importantRecommendationsIgnoreKey) <> k)
    by (intros <-; apply Hk; cbn; auto).
  assert (H3 : (WORKSPACE, workspaceRecommendationsIgnoreKey) <> k)
    by (intros <-; apply Hk; cbn; auto).
  event_cases h w e; cbn [resume]; try reflexivity.
  - cbn. unfold storage_store. now rewrite lookup_insert_ne.
  - destruct (suggest_installed_frame h u local
                (set_installedQueries (delete q (installedQueries w)) w))
      as (_ & H & _).
    now rewrite H.
  - destruct (workspace_installed_frame allRecommendations local
                (set_installedQueries (delete q (installedQueries w)) w))
      as (_ & H & _).
    now rewrite H.
  - unfold neverAgainAction.
    destruct (importantRecommendationsIgnoreList (service w)); [|reflexivity].
    cbn. unfold storage_store. now rewrite lookup_insert_ne.
  - cbn. unfold storage_store. now rewrite lookup_insert_ne.
Qed.

Lemma new_storage (h : Host) (st : Storage) (w0 : World) :
  ExtensionTipsService_new h st = Returned w0 -> storage w0 = st.
Proof.
  intros Hnew.
  destruct (galleryService_isEnabled h) eqn:Hen.
  - destruct (product_extensionTips h) as [tips|] eqn:Ht.
    + destruct (new_hydrates h st tips Hen Ht) as (_ & _ & H3).
      destruct (H3 w0 Hnew) as (_ & _ & _ & _ & _ & _ & S5 & _). exact S5.
    + revert Hnew. unfold ExtensionTipsService_new, _suggestTips.
      rewrite Hen, Ht. cbn [negb]. intros [= <-].
      destruct (suggestWorkspaceRecommendations_frame h (start st)) as (_ & F & _).
      exact F.
  - revert Hnew. unfold ExtensionTipsService_new. rewrite Hen. cbn [negb].
    now intros [= <-].
Qed.

Lemma run_storage_frame (h : Host) (evs : list Event) (w : World)
    (k : StorageScope * string) :
  ~ In k engine_keys -> storage (run h evs w) !! k = storage w !! k.
Proof.
  intros Hk. unfold run. revert w.
  induction evs as [|e evs IH]; intros w; [reflexivity|].
  cbn [fold_left]. rewrite IH. apply handle_storage_frame, Hk.
Qed.

(** X12: the constructor writes nothing to the storage, and no event
    ever changes an entry other than the three the engine owns (the
    recommendations and the ignore list of the global scope, the
    dismissal flag of the workspace scope). *)
Theorem X12_engine_writes_only_its_keys (h : Host) (st : Storage) :
  (forall w0, ExtensionTipsService_new h st = Returned w0 -> storage w0 = st) /\
  (forall w evs k,
     ~ In k engine_keys -> storage (run h evs w) !! k = storage w !! k).
Proof.
  split.
  - intros w0. apply new_storage.
  - intros w evs k. apply run_storage_frame.
Qed.

Lemma X12_witness :
  storage
    (run sample_host
       [Installed 0 []; ModelAdded (Some a_ts); Immediate; Installed 0 [];
        RunAction 0 NeverShowAgain; RunAction 1 NeverShowAgain]
       sample_world) !! (WORKSPACE, recommendationsKey)
  = storage sample_world !! (WORKSPACE, recommendationsKey).
Proof.
  apply (proj2 (X12_engine_writes_only_its_keys sample_host ∅)).
  cbn. intros [H|[H|[H|[]]]]; discriminate.
Defined.

Lemma handle_workspace_flag (h : Host) (w : World) (e : Event) :
  storage_getBoolean (storage w) workspaceRecommendationsIgnoreKey WORKSPACE false = true ->
  storage_getBoolean (storage (handle h w e)) workspaceRecommendationsIgnoreKey
    WORKSPACE false = true.
Proof.
  intros Hflag.
  assert (Hkeep : forall st' : Storage,
            st' !! (WORKSPACE, workspaceRecommendationsIgnoreKey)
            = storage w !! (WORKSPACE, workspaceRecommendationsIgnoreKey) ->
            storage_getBoolean st' workspaceRecommendationsIgnoreKey WORKSPACE false
            = true).
  { intros st' H. unfold storage_getBoolean in *. now rewrite H. }
  event_cases h w e; cbn [resume]; try (apply Hkeep; reflexivity).
  - apply Hkeep. cbn. unfold storage_store. now rewrite lookup_insert_ne.
  - destruct (suggest_installed_frame h u local
                (set_installedQueries (delete q (installedQueries w)) w))
      as (_ & H & _).
    apply Hkeep. now rewrite H.
  - destruct (workspace_installed_frame allRecommendations local
                (set_installedQueries (delete q (installedQueries w)) w))
      as (_ & H & _).
    apply Hkeep. now rewrite H.
  - unfold neverAgainAction.
    destruct (importantRecommendationsIgnoreList (service w));
      apply Hkeep; [|reflexivity].
    cbn. unfold storage_store. now rewrite lookup_insert_ne.
  - cbn. unfold storage_getBoolean, storage_store. now rewrite lookup_insert_eq.
Qed.

(** X13: a dismissal of the workspace message is never taken back: once
    the dismissal flag of the workspace reads true, it reads true after
    every later event. *)
Theorem X13_workspace_dismissal_is_kept (h : Host) (w : World) (evs : list Event) :
  storage_getBoolean (storage w) workspaceRecommendationsIgnoreKey WORKSPACE false = true ->
  storage_getBoolean (storage (run h evs w)) workspaceRecommendationsIgnoreKey
    WORKSPACE false = true.
Proof.
  unfold run. revert w. induction evs as [|e evs IH]; intros w Hflag; [exact Hflag|].
  cbn [fold_left]. apply IH, handle_workspace_flag, Hflag.
Qed.

Lemma X13_witness :
  storage_getBoolean
    (storage
       (run sample_host [ModelAdded (Some readme); Immediate; InstalledRejected 0]
          (run sample_host [Installed 0 []; RunAction 0 NeverShowAgain] sample_world)))
    workspaceRecommendationsIgnoreKey WORKSPACE false = true.
Proof.
  apply (X13_workspace_dismissal_is_kept sample_host
           (run sample_host [Installed 0 []; RunAction 0 NeverShowAgain] sample_world)
           [ModelAdded (Some readme); Immediate; InstalledRejected 0]).
  vm_compute. reflexivity.
Defined.

(** X14: the pattern index and the important tips are fixed once the
    constructor has returned: no event changes either. *)
Theorem X14_index_and_tips_are_immutable (h : Host) (w : World) (evs : list Event) :
  _availableRecommendations (service (run h evs w))
  = _availableRecommendations (service w)
  /\ importantRecommendations (service (run h evs w))
     = importantRecommendations (service w).
Proof.
  unfold run. revert w. induction evs as [|e evs IH]; intros w; [split; reflexivity|].
  cbn [fold_left]. destruct (IH (handle h w e)) as [-> ->].
  destruct (handle_service h w e) as (S1 & S2 & _). split; assumption.
Qed.

(** ** Further properties: observing documents *)

(** X15: with the gallery enabled and a tip map there, the constructor
    registers one listener for added models and queues one deferred
    unit for each model that is open already and has a uri, in the
    order of the models; it builds the index of the tip map, takes the
    important tips of the product (none when absent) and shows no
    message by itself. *)
Theorem X15_constructor_observes_open_models
    (h : Host) (st : Storage) (w0 : World) (tips : dict string) :
  galleryService_isEnabled h = true ->
  product_extensionTips h = Some tips ->
  ExtensionTipsService_new h st = Returned w0 ->
  immediates w0 = model_uris (modelService_getModels h) /\
  _disposables (service w0) = [ModelAddedListener] /\
  _availableRecommendations (service w0) = group_tips tips /\
  importantRecommendations (service w0)
  = Some match product_extensionImportantTips h with
         | Some t => t
         | None => []
         end /\
  messages w0 = [].
Proof.
  intros Hen Htips Hnew.
  destruct (new_fields h st w0 tips Hen Htips Hnew) as (H1 & H2 & H3 & H4).
  destruct (new_workspace_count h st w0 Hnew) as (Hm & _).
  repeat split; assumption.
Qed.

Lemma X15_witness :
  immediates busy_world = model_uris (modelService_getModels busy_host) /\
  _disposables (service busy_world) = [ModelAddedListener] /\
  _availableRecommendations (service busy_world)
  = group_tips [("foo.bar", "**/*.md"); ("foo.baz", "**/*.md"); ("ms.ts", "**/*.ts")] /\
  importantRecommendations (service busy_world)
  = Some match product_extensionImportantTips busy_host with
         | Some t => t
         | None => []
         end /\
  messages busy_world = [].
Proof.
  assert (Hnew : ExtensionTipsService_new busy_host ∅ = Returned busy_world)
    by (vm_compute; reflexivity).
  exact (X15_constructor_observes_open_models busy_host ∅ busy_world
           [("foo.bar", "**/*.md"); ("foo.baz", "**/*.md"); ("ms.ts", "**/*.ts")]
           eq_refl eq_refl Hnew).
Defined.

Lemma handle_disposables (h : Host) (w : World) (e : Event) :
  _disposables (service (handle h w e))
  = match e with
    | Dispose => []
    | _ => _disposables (service w)
    end.
Proof.
  event_cases h w e; cbn [resume]; try reflexivity.
  - destruct (suggest_installed_frame h u local
                (set_installedQueries (delete q (installedQueries w)) w)) as (H & _).
    now rewrite H.
  - destruct (workspace_installed_frame allRecommendations local
                (set_installedQueries (delete q (installedQueries w)) w)) as (H & _).
    now rewrite H.
  - unfold neverAgainAction.
    destruct (importantRecommendationsIgnoreList (service w)); reflexivity.
Qed.

Lemma run_disposables_nil (h : Host) (evs : list Event) (w : World) :
  _disposables (service w) = [] -> _disposables (service (run h evs w)) = [].
Proof.
  unfold run. revert w. induction evs as [|e evs IH]; intros w Hw; [exact Hw|].
  cbn [fold_left]. apply IH. rewrite handle_disposables. now destruct e.
Qed.

(** X16: a model without a uri is not observed, and after [dispose()]
    no model is: announcing a model then leaves everything as it is,
    at any later point of the run.  Nothing registers a listener
    again. *)
Theorem X16_nothing_observed_without_uri_or_after_dispose
    (h : Host) (w : World) (evs : list Event) (uri : option URI) :
  handle h w (ModelAdded None) = w /\
  handle h (run h evs (handle h w Dispose)) (ModelAdded uri)
  = run h evs (handle h w Dispose).
Proof.
  split.
  - cbn [handle]. apply fold_suggest_none.
  - cbn [handle].
    rewrite (run_disposables_nil h evs (dispose w) eq_refl). reflexivity.
Qed.

Lemma run_disposables_kept (h : Host) (evs : list Event) (w : World) :
  ~ In Dispose evs ->
  _disposables (service (run h evs w)) = _disposables (service w).
Proof.
  unfold run. revert w. induction evs as [|e evs IH]; intros w Hno; [reflexivity|].
  cbn [fold_left]. rewrite IH by (intros Hin; apply Hno; now right).
  rewrite handle_disposables. destruct e; try reflexivity.
  exfalso. apply Hno. now left.
Qed.

(** X17: until it is disposed, an engine built with a tip map queues
    exactly one deferred unit for each announced model that has a uri,
    behind the units queued before. *)
Theorem X17_each_observed_document_is_queued_once
    (h : Host) (st : Storage) (w0 : World) (evs : list Event) (uri : URI) :
  galleryService_isEnabled h = true ->
  product_extensionTips h <> None ->
  ExtensionTipsService_new h st = Returned w0 ->
  ~ In Dispose evs ->
  immediates (handle h (run h evs w0) (ModelAdded (Some uri)))
  = immediates (run h evs w0) ++ [uri].
Proof.
  intros Hen Htips Hnew Hno.
  destruct (product_extensionTips h) as [tips|] eqn:Ht; [|congruence].
  destruct (new_fields h st w0 tips Hen Ht Hnew) as (_ & Hd & _).
  rewrite observed_is_queued, (run_disposables_kept h evs w0 Hno), Hd. reflexivity.
Qed.

Lemma X17_witness :
  immediates
    (handle sample_host
       (run sample_host [ModelAdded (Some readme); Installed 0 []] sample_world)
       (ModelAdded (Some a_ts)))
  = immediates (run sample_host [ModelAdded (Some readme); Installed 0 []] sample_world)
    ++ [a_ts].
Proof.
  assert (Hnew : ExtensionTipsService_new sample_host ∅ = Returned sample_world)
    by (vm_compute; reflexivity).
  assert (Ht : product_extensionTips sample_host <> None) by discriminate.
  assert (Hno : ~ In Dispose [ModelAdded (Some readme); Installed 0 []])
    by (cbn; intros [H|[H|[]]]; discriminate).
  exact (X17_each_observed_document_is_queued_once sample_host ∅ sample_world
           [ModelAdded (Some readme); Installed 0 []] a_ts eq_refl Ht Hnew Hno).
Defined.
